(** * The activity monitor of openhands.monitoring

    A shallow embedding of [openhands/monitoring/types.py] and
    [openhands/monitoring/monitor.py] (class [ActivityMonitor]), with the
    properties of its activity store, its subscriber fan-out and its
    per-agent moving average.

    Conventions of the embedding:
    - a Python [int] is a [Z]; a Python [float] is idealised as an exact
      rational [Q] (no rounding);
    - a [datetime] is a [Z] counting microseconds, and
      [timedelta.total_seconds()] is the difference divided by 10^6;
    - [uuid.uuid4()] and [datetime.now()] are inputs of the operation that
      reads them;
    - a [Dict[str, _]] is a [gmap string _]; a list is a [list];
    - an [Activity] object sits in one container at a time (the operations
      move it, they never copy it), so objects are modelled as values;
    - a subscriber is a function of the event it is handed: it returns or
      raises, and does not call back into the monitor nor change the
      object it receives;
    - the lock is not modelled: every operation is one atomic step. *)

From Stdlib Require Import QArith Qfield.
From stdpp Require Import gmap strings list fin_maps.

Local Open Scope Z_scope.

(** ** types.py *)

Inductive ActivityType :=
| AGENT_EXECUTION | TOOL_EXECUTION | LLM_CALL | FILE_OPERATION
| COMMAND_EXECUTION | NETWORK_REQUEST | MEMORY_OPERATION | WORKFLOW_STEP.

Inductive ActivityStatus := STARTED | COMPLETED | FAILED | CANCELLED.

(** The values stored under [Any] in a metadata dictionary. *)
Inductive pyval :=
| PNone
| PBool (b : bool)
| PInt (z : Z)
| PFloat (q : Q)
| PStr (s : string).

Record Activity := mkActivity {
  act_id : string;
  act_type : ActivityType;
  act_name : string;
  act_timestamp : Z;
  act_status : ActivityStatus;
  act_metadata : gmap string pyval;
  act_duration : option Q;
  act_parent_id : option string;
  act_children : list string
}.

Record SystemMetrics := mkSystemMetrics {
  sm_timestamp : Z;
  sm_cpu_usage : Q;
  sm_memory_usage : Q;
  sm_disk_usage : Q;
  sm_network_io : gmap string Q;
  sm_active_processes : Z
}.

Record AgentMetrics := mkAgentMetrics {
  agent_name : string;
  tasks_completed : Z;
  tasks_failed : Z;
  average_response_time : Q;
  tool_usage : gmap string Z;
  token_usage : Z
}.

Record VisualizationConfig := mkConfig {
  enabled : bool;
  update_interval : Q;
  max_history : Z;
  enable_resource_monitoring : bool;
  enable_agent_metrics : bool;
  enable_detailed_logging : bool
}.

(** [VisualizationConfig()] with the defaults of the dataclass. *)
Definition default_config : VisualizationConfig :=
  mkConfig true (1 # 10) 1000 true true false.

(** ** Python helpers *)

(** [l[i:]] for an arbitrary integer [i]: a negative index counts from the
    end and is clamped at the front, a non-negative one is clamped at the
    end. *)
Definition slice_from {A : Type} (i : Z) (l : list A) : list A :=
  if i <? 0 then drop (Z.to_nat (Z.of_nat (length l) + i)) l
  else drop (Z.to_nat i) l.

(** [timedelta.total_seconds()] of a difference given in microseconds. *)
Definition total_seconds (micros : Z) : Q := (micros # 1000000)%Q.

(** Truth value of an optional dictionary argument ([None] and [{}] are
    falsy). *)
Definition truthy_dict {V : Type} (d : option (gmap string V)) : bool :=
  match d with
  | None => false
  | Some d => negb (Nat.eqb (size d) 0)
  end.

(** ** Callbacks and exceptions

    A subscriber is a callable; a call either returns or raises.  The
    handler of the monitor is [except Exception], which catches instances of
    [Exception] and lets the other [BaseException]s (KeyboardInterrupt,
    SystemExit, ...) through. *)

Inductive exn :=
| Exception (msg : string)
| BaseException (msg : string).

Inductive outcome (A : Type) :=
| Returned (a : A)
| Raised (e : exn).
Arguments Returned {A} a.
Arguments Raised {A} e.

Record Callback (E : Type) := mkCallback {
  cb_tag : nat;
  cb_run : E -> outcome unit
}.
Arguments mkCallback {E} cb_tag cb_run.
Arguments cb_tag {E} c.
Arguments cb_run {E} c e.

(** The loop [for subscriber in subs: try: subscriber(e) except Exception:
    pass].  The first component lists the calls made, in order. *)
Fixpoint notify {E : Type} (subs : list (Callback E)) (e : E)
  : list (nat * E) * outcome unit :=
  match subs with
  | [] => ([], Returned tt)
  | s :: rest =>
      match cb_run s e with
      | Raised (BaseException msg) =>
          ([(cb_tag s, e)], Raised (BaseException msg))
      | _ =>
          let '(cs, o) := notify rest e in ((cb_tag s, e) :: cs, o)
      end
  end.

(** ** monitor.py: the state of an [ActivityMonitor] *)

Record Stats := mkStats {
  activities_started : Z;
  activities_completed : Z;
  activities_failed : Z;
  total_duration : Q
}.

Record ActivityMonitor := mkMonitor {
  config : VisualizationConfig;
  activities : gmap string Activity;
  activities_history : list Activity;
  system_metrics : list SystemMetrics;
  agent_metrics : gmap string AgentMetrics;
  subscribers : list (Callback Activity);
  metrics_subscribers : list (Callback SystemMetrics);
  stats : Stats
}.

(** [ActivityMonitor.__init__] *)
Definition init (cfg : VisualizationConfig) : ActivityMonitor :=
  mkMonitor cfg ∅ [] [] ∅ [] [] (mkStats 0 0 0 0%Q).

(** What a bus delivers: one of the two topics. *)
Inductive bus_event :=
| ActivityUpdate (a : Activity)
| MetricsUpdate (s : SystemMetrics).

(** The result of one operation: the new state, the activity handed to
    [_notify_subscribers] (if the call got that far), the subscriber calls
    made, and what the caller sees ([None] for a procedure). *)
Record result := mkResult {
  st : ActivityMonitor;
  published : option Activity;
  calls : list (nat * bus_event);
  ret : outcome (option string)
}.

Definition unchanged (m : ActivityMonitor) (r : option string) : result :=
  mkResult m None [] (Returned r).

(** [_notify_subscribers] *)
Definition notify_subscribers (m : ActivityMonitor) (a : Activity)
  : list (nat * bus_event) * outcome unit :=
  let '(cs, o) := notify (subscribers m) a in
  (map (fun c => (c.1, ActivityUpdate c.2)) cs, o).

Definition after_notify (m : ActivityMonitor) (a : Activity)
  (r : option string) : result :=
  let '(cs, o) := notify_subscribers m a in
  mkResult m (Some a) cs
    match o with
    | Returned _ => Returned r
    | Raised e => Raised e
    end.

(** ** monitor.py: the operations *)

Definition start_activity (uuid : string) (now : Z)
  (activity_type : ActivityType) (name : string)
  (metadata : option (gmap string pyval)) (parent_id : option string)
  (m : ActivityMonitor) : result :=
  if negb (enabled (config m)) then unchanged m (Some ""%string)
  else
    let activity :=
      mkActivity uuid activity_type name now STARTED
        (if truthy_dict metadata then default ∅ metadata else ∅)
        None parent_id [] in
    let st0 := stats m in
    let m' :=
      mkMonitor (config m) (<[uuid := activity]> (activities m))
        (activities_history m) (system_metrics m) (agent_metrics m)
        (subscribers m) (metrics_subscribers m)
        (mkStats (activities_started st0 + 1) (activities_completed st0)
           (activities_failed st0) (total_duration st0)) in
    after_notify m' activity (Some uuid).

(** The assignments of [end_activity] to the activity object. *)
Definition finalize (a : Activity) (status : ActivityStatus)
  (metadata : option (gmap string pyval)) (now : Z) : Activity :=
  mkActivity (act_id a) (act_type a) (act_name a) (act_timestamp a) status
    (if truthy_dict metadata then default ∅ metadata ∪ act_metadata a
     else act_metadata a)
    (Some (total_seconds (now - act_timestamp a)))
    (act_parent_id a) (act_children a).

Definition update_stats (s : Stats) (status : ActivityStatus) (d : Q) : Stats :=
  match status with
  | COMPLETED =>
      mkStats (activities_started s) (activities_completed s + 1)
        (activities_failed s) (total_duration s + d)%Q
  | FAILED =>
      mkStats (activities_started s) (activities_completed s)
        (activities_failed s + 1) (total_duration s)
  | _ => s
  end.

(** [if len(h) > cap: h = h[-cap:]] *)
Definition trim {A : Type} (cap : Z) (h : list A) : list A :=
  if Z.of_nat (length h) >? cap then slice_from (- cap) h else h.

Definition end_activity (activity_id : string) (status : ActivityStatus)
  (metadata : option (gmap string pyval)) (now : Z)
  (m : ActivityMonitor) : result :=
  if negb (enabled (config m)) || String.eqb activity_id "" then
    unchanged m None
  else
    match activities m !! activity_id with
    | None => unchanged m None
    | Some activity0 =>
        let activity := finalize activity0 status metadata now in
        let m' :=
          mkMonitor (config m) (delete activity_id (activities m))
            (trim (max_history (config m))
               (activities_history m ++ [activity]))
            (system_metrics m) (agent_metrics m)
            (subscribers m) (metrics_subscribers m)
            (update_stats (stats m) status
               (total_seconds (now - act_timestamp activity0))) in
        after_notify m' activity None
    end.

Definition append_child (child_id : string) (a : Activity) : Activity :=
  mkActivity (act_id a) (act_type a) (act_name a) (act_timestamp a)
    (act_status a) (act_metadata a) (act_duration a) (act_parent_id a)
    (act_children a ++ [child_id]).

Definition add_child_activity (parent_id child_id : string)
  (m : ActivityMonitor) : result :=
  if negb (enabled (config m)) then unchanged m None
  else
    match activities m !! parent_id, activities m !! child_id with
    | Some p, Some _ =>
        unchanged
          (mkMonitor (config m)
             (<[parent_id := append_child child_id p]> (activities m))
             (activities_history m) (system_metrics m) (agent_metrics m)
             (subscribers m) (metrics_subscribers m) (stats m))
          None
    | _, _ => unchanged m None
    end.

(** The dictionary [metrics_update].  The code only asks whether a key is
    present: a boolean field says that the key is in the dictionary
    (whatever its value), an optional field holds the value read under the
    key. *)
Record metrics_update := mkUpdate {
  mu_task_completed : bool;
  mu_task_failed : bool;
  mu_response_time : option Q;
  mu_tool_used : option string;
  mu_tokens_used : option Z
}.

(** The entry created for an agent seen for the first time. *)
Definition new_agent_metrics (name : string) : AgentMetrics :=
  mkAgentMetrics name 0 0 0%Q ∅ 0.

Definition bump (b : bool) (n : Z) : Z := if b then n + 1 else n.

(** The moving-average branch, run after the two counters were updated. *)
Definition moving_average (avg : Q) (total_tasks : Z) (rt : option Q) : Q :=
  match rt with
  | None => avg
  | Some sample =>
      if total_tasks >? 0 then
        ((avg * inject_Z (total_tasks - 1) + sample) / inject_Z total_tasks)%Q
      else avg
  end.

Definition count_tool (tool : option string) (tu : gmap string Z)
  : gmap string Z :=
  match tool with
  | None => tu
  | Some t => <[t := default 0 (tu !! t) + 1]> tu
  end.

(** The body of [update_agent_metrics] on the entry [metrics]. *)
Definition apply_update (u : metrics_update) (metrics : AgentMetrics)
  : AgentMetrics :=
  let completed := bump (mu_task_completed u) (tasks_completed metrics) in
  let failed := bump (mu_task_failed u) (tasks_failed metrics) in
  mkAgentMetrics (agent_name metrics) completed failed
    (moving_average (average_response_time metrics) (completed + failed)
       (mu_response_time u))
    (count_tool (mu_tool_used u) (tool_usage metrics))
    (token_usage metrics + default 0 (mu_tokens_used u)).

Definition update_agent_metrics (name : string) (u : metrics_update)
  (m : ActivityMonitor) : result :=
  if negb (enabled (config m)) || negb (enable_agent_metrics (config m)) then
    unchanged m None
  else
    let metrics := default (new_agent_metrics name) (agent_metrics m !! name) in
    unchanged
      (mkMonitor (config m) (activities m) (activities_history m)
         (system_metrics m) (<[name := apply_update u metrics]> (agent_metrics m))
         (subscribers m) (metrics_subscribers m) (stats m))
      None.

Definition subscribe_to_activities (callback : Callback Activity)
  (m : ActivityMonitor) : result :=
  unchanged
    (mkMonitor (config m) (activities m) (activities_history m)
       (system_metrics m) (agent_metrics m)
       (subscribers m ++ [callback]) (metrics_subscribers m) (stats m))
    None.

Definition subscribe_to_metrics (callback : Callback SystemMetrics)
  (m : ActivityMonitor) : result :=
  unchanged
    (mkMonitor (config m) (activities m) (activities_history m)
       (system_metrics m) (agent_metrics m)
       (subscribers m) (metrics_subscribers m ++ [callback]) (stats m))
    None.

Definition get_recent_activities (limit : Z) (m : ActivityMonitor)
  : list Activity :=
  slice_from (- limit) (activities_history m).

Definition get_active_activities (m : ActivityMonitor) : list Activity :=
  (map_to_list (activities m)).*2.

Definition get_system_metrics (limit : Z) (m : ActivityMonitor)
  : list SystemMetrics :=
  slice_from (- limit) (system_metrics m).

(** One round of [_collect_system_metrics] once the sample [metrics] has
    been read: the append and trim under the lock, then the calls to the
    metrics subscribers.  The loop around it, with its sleeps and its
    cancellation, is not modelled. *)
Definition collect_sample (metrics : SystemMetrics) (m : ActivityMonitor)
  : result :=
  let m' :=
    mkMonitor (config m) (activities m) (activities_history m)
      (trim (max_history (config m)) (system_metrics m ++ [metrics]))
      (agent_metrics m) (subscribers m) (metrics_subscribers m) (stats m) in
  let '(cs, o) := notify (metrics_subscribers m) metrics in
  mkResult m' None (map (fun c => (c.1, MetricsUpdate c.2)) cs)
    match o with
    | Returned _ => Returned None
    | Raised e => Raised e
    end.

(** integration.py, [enable_monitoring]: the assignment
    [monitor.config.enabled = enable]. *)
Definition enable_monitoring (enable : bool) (m : ActivityMonitor) : result :=
  let c := config m in
  unchanged
    (mkMonitor
       (mkConfig enable (update_interval c) (max_history c)
          (enable_resource_monitoring c) (enable_agent_metrics c)
          (enable_detailed_logging c))
       (activities m) (activities_history m) (system_metrics m)
       (agent_metrics m) (subscribers m) (metrics_subscribers m) (stats m))
    None.

(** ** Sequences of operations *)

Inductive op :=
| StartActivity (uuid : string) (now : Z) (ty : ActivityType) (name : string)
    (metadata : option (gmap string pyval)) (parent_id : option string)
| EndActivity (activity_id : string) (status : ActivityStatus)
    (metadata : option (gmap string pyval)) (now : Z)
| AddChildActivity (parent_id child_id : string)
| UpdateAgentMetrics (name : string) (u : metrics_update)
| SubscribeToActivities (callback : Callback Activity)
| SubscribeToMetrics (callback : Callback SystemMetrics)
| CollectSample (metrics : SystemMetrics)
| EnableMonitoring (enable : bool).

Definition step (o : op) (m : ActivityMonitor) : result :=
  match o with
  | StartActivity uuid now ty name md p => start_activity uuid now ty name md p m
  | EndActivity i s md now => end_activity i s md now m
  | AddChildActivity p c => add_child_activity p c m
  | UpdateAgentMetrics n u => update_agent_metrics n u m
  | SubscribeToActivities cb => subscribe_to_activities cb m
  | SubscribeToMetrics cb => subscribe_to_metrics cb m
  | CollectSample s => collect_sample s m
  | EnableMonitoring b => enable_monitoring b m
  end.

(** The state after a sequence of operations (an operation that raises has
    still done its updates, and the monitor stays in use). *)
Definition exec (m : ActivityMonitor) (t : list op) : ActivityMonitor :=
  foldl (fun m o => st (step o m)) m t.

(** The log of a sequence: each operation with its result. *)
Fixpoint log (m : ActivityMonitor) (t : list op) : list (op * result) :=
  match t with
  | [] => []
  | o :: t' => (o, step o m) :: log (st (step o m)) t'
  end.

(** The identifiers drawn from [uuid.uuid4()] in a sequence. *)
Definition uuids (t : list op) : list string :=
  omap (fun o => match o with
                 | StartActivity u _ _ _ _ _ => Some u
                 | _ => None
                 end) t.

(** [uuid4] does not repeat itself, and its text is never empty. *)
Definition fresh_uuids (t : list op) : Prop :=
  NoDup (uuids t) /\ ""%string ∉ uuids t.

(** Identifiers handed out by [start_activity] in a log: the activity was
    created and published. *)
Definition created (l : list (op * result)) : list string :=
  omap (fun e => match e with
                 | (StartActivity _ _ _ _ _ _, r) => act_id <$> published r
                 | _ => None
                 end) l.

(** Identifiers that [end_activity] moved from the live set to the
    history in a log. *)
Definition moved (l : list (op * result)) : list string :=
  omap (fun e => match e with
                 | (EndActivity _ _ _ _, r) => act_id <$> published r
                 | _ => None
                 end) l.

Definition live (m : ActivityMonitor) (i : string) : Prop :=
  is_Some (activities m !! i).

Definition in_history (m : ActivityMonitor) (i : string) : Prop :=
  i ∈ act_id <$> activities_history m.

(** * Properties *)

(** ** Slices and trimming *)

Section Slices.
Context {A : Type}.
Implicit Types (l : list A) (k cap : Z).

Lemma slice_from_zero l : slice_from 0 l = l.
Proof. reflexivity. Qed.

Lemma slice_from_last k l :
  0 < k -> slice_from (- k) l = drop (length l - Z.to_nat k) l.
Proof.
  intros Hk. unfold slice_from.
  destruct (Z.ltb_spec (- k) 0) as [_|?]; [|lia].
  f_equal. lia.
Qed.

Lemma length_slice_from_last k l :
  0 < k -> length (slice_from (- k) l) = (length l `min` Z.to_nat k)%nat.
Proof. intros Hk. rewrite slice_from_last, length_drop by done. lia. Qed.

Lemma trim_zero l : trim 0 l = l.
Proof. unfold trim. by destruct (_ >? _). Qed.

Lemma trim_pos cap l :
  0 < cap -> trim cap l = drop (length l - Z.to_nat cap) l.
Proof.
  intros Hc. unfold trim.
  destruct (Z.gtb_spec (Z.of_nat (length l)) cap) as [Hgt|Hle].
  - by apply slice_from_last.
  - replace (length l - Z.to_nat cap)%nat with 0%nat by lia. done.
Qed.

Lemma length_trim_pos cap l :
  0 < cap -> length (trim cap l) = (length l `min` Z.to_nat cap)%nat.
Proof. intros Hc. rewrite trim_pos, length_drop by done. lia. Qed.

Lemma trim_drop cap l : exists n, trim cap l = drop n l.
Proof.
  unfold trim, slice_from.
  destruct (_ >? _); [destruct (_ <? _)|]; try (eexists; reflexivity).
  by exists 0%nat.
Qed.

Lemma last_drop_snoc n l x : (n <= length l)%nat -> last (drop n (l ++ [x])) = Some x.
Proof. intros Hn. rewrite drop_app_le by done. apply last_snoc. Qed.

Lemma last_trim_snoc cap l x : 0 <= cap -> last (trim cap (l ++ [x])) = Some x.
Proof.
  intros Hc. destruct (decide (cap = 0)) as [->|Hne].
  - rewrite trim_zero. apply last_snoc.
  - rewrite trim_pos by lia. rewrite length_app. simpl.
    apply last_drop_snoc. lia.
Qed.
End Slices.

Lemma elem_of_drop {A : Type} (x : A) n (l : list A) : x ∈ drop n l -> x ∈ l.
Proof.
  intros Hx. rewrite <- (take_drop n l). apply elem_of_app. by right.
Qed.

Lemma elem_of_trim {A : Type} (x : A) cap (l : list A) : x ∈ trim cap l -> x ∈ l.
Proof. destruct (trim_drop cap l) as [n ->]. apply elem_of_drop. Qed.

(** ** The subscriber loop *)

Section Notify.
Context {E : Type}.

(** The callback does not raise anything that [except Exception] lets
    through. *)
Definition caught (e : E) (s : Callback E) : Prop :=
  forall msg, cb_run s e <> Raised (BaseException msg).

Lemma notify_all (subs : list (Callback E)) (e : E) :
  Forall (caught e) subs ->
  notify subs e = (map (fun s => (cb_tag s, e)) subs, Returned tt).
Proof.
  induction 1 as [|s rest Hs _ IH]; simpl; [done|].
  rewrite IH. destruct (cb_run s e) as [[]|[msg|msg]] eqn:Hrun; try done.
  by destruct (Hs msg).
Qed.

(** Whatever the callbacks do, the calls made are a prefix of the
    registration order. *)
Lemma notify_prefix (subs : list (Callback E)) (e : E) :
  (notify subs e).1 `prefix_of` map (fun s => (cb_tag s, e)) subs.
Proof.
  induction subs as [|s rest IH]; simpl; [done|].
  destruct (notify rest e) as [cs o]. simpl in IH.
  destruct (cb_run s e) as [[]|[msg|msg]]; simpl;
    try (by apply prefix_cons).
  apply prefix_cons, prefix_nil.
Qed.
End Notify.

Lemma subscribers_exec_subscribe m (cbs : list (Callback Activity)) :
  subscribers (exec m (SubscribeToActivities <$> cbs)) = subscribers m ++ cbs.
Proof.
  revert m. induction cbs as [|cb cbs IH]; intros m; simpl.
  - by rewrite app_nil_r.
  - unfold exec in *. simpl. rewrite IH. simpl. by rewrite <- app_assoc.
Qed.

(** A subscriber that lets through what [except Exception] does not
    catch ends the loop: it is the last one called, and its exception is
    the outcome. *)
Lemma notify_interrupted {E : Type} (pre post : list (Callback E)) s (e : E) msg :
  Forall (caught e) pre ->
  cb_run s e = Raised (BaseException msg) ->
  notify (pre ++ s :: post) e
  = (map (fun s => (cb_tag s, e)) (pre ++ [s]), Raised (BaseException msg)).
Proof.
  intros Hpre Hs. induction Hpre as [|p pre Hp _ IH]; simpl.
  - by rewrite Hs.
  - rewrite IH. destruct (cb_run p e) as [[]|[m|m]] eqn:Hrun; try done.
    by destruct (Hp m).
Qed.

(** C7, amended.  Publishing an activity calls the registered subscribers
    in the order of registration, each at most once.  An [Exception] raised
    by a subscriber is swallowed: when no subscriber raises anything else,
    every subscriber is called and nothing reaches the caller.  An
    exception that is not an [Exception] is not caught: the first
    subscriber that raises one is the last one called, the subscribers
    registered after it are skipped, and the exception reaches the
    caller. *)
Theorem notify_subscribers_isolated m (cbs : list (Callback Activity)) a :
  let subs := subscribers m ++ cbs in
  let m' := exec m (SubscribeToActivities <$> cbs) in
  (Forall (caught a) subs ->
   notify_subscribers m' a
   = (map (fun s => (cb_tag s, ActivityUpdate a)) subs, Returned tt))
  /\ (forall pre s post msg,
        subs = pre ++ s :: post ->
        Forall (caught a) pre ->
        cb_run s a = Raised (BaseException msg) ->
        notify_subscribers m' a
        = (map (fun s => (cb_tag s, ActivityUpdate a)) (pre ++ [s]),
           Raised (BaseException msg))).
Proof.
  intros subs m'. unfold notify_subscribers, m'.
  rewrite subscribers_exec_subscribe. fold subs. split.
  - intros Hc. rewrite (notify_all _ _ Hc). by rewrite map_map.
  - intros pre s post msg -> Hpre Hs.
    rewrite (notify_interrupted pre post s a msg Hpre Hs).
    by rewrite map_map.
Qed.

(** A monitor with one live activity "q", started at time 1. *)
Definition one_live : ActivityMonitor :=
  exec (init default_config)
    [StartActivity "q" 1 TOOL_EXECUTION "fetch" None None].

Definition q_started : Activity :=
  mkActivity "q" TOOL_EXECUTION "fetch" 1 STARTED ∅ None None [].

(** One subscriber that always fails and one that always succeeds. *)
Definition failing_cb : Callback Activity :=
  mkCallback 0%nat (fun _ => Raised (Exception "boom")).
Definition logging_cb : Callback Activity :=
  mkCallback 1%nat (fun _ => Returned tt).

(** A subscriber whose callback is interrupted, as by [KeyboardInterrupt]
    or the cancellation of its task. *)
Definition interrupted_cb : Callback Activity :=
  mkCallback 0%nat (fun _ => Raised (BaseException "KeyboardInterrupt")).

Lemma notify_subscribers_isolated_witness :
  notify_subscribers
    (exec (init default_config)
       (SubscribeToActivities <$> [failing_cb; logging_cb])) q_started
  = ([(0%nat, ActivityUpdate q_started); (1%nat, ActivityUpdate q_started)],
     Returned tt).
Proof.
  apply (proj1 (notify_subscribers_isolated (init default_config)
                  [failing_cb; logging_cb] q_started)).
  repeat constructor; intros msg; discriminate.
Defined.

(** C7 as stated fails for an exception that is not an [Exception]: the
    subscriber registered after [interrupted_cb] is not called, and the
    exception reaches the caller of [_notify_subscribers]. *)
Lemma interrupt_skips_the_rest :
  notify_subscribers
    (exec (init default_config)
       (SubscribeToActivities <$> [interrupted_cb; logging_cb])) q_started
  = ([(0%nat, ActivityUpdate q_started)],
     Raised (BaseException "KeyboardInterrupt"))
  /\ ((1%nat, ActivityUpdate q_started)
      ∉ (notify_subscribers
           (exec (init default_config)
              (SubscribeToActivities <$> [interrupted_cb; logging_cb]))
           q_started).1).
Proof.
  split; [reflexivity|].
  change ((1%nat, ActivityUpdate q_started)
          ∉ [(0%nat, ActivityUpdate q_started)]).
  apply not_elem_of_cons. split; [discriminate|apply not_elem_of_nil].
Qed.

(** ** Disabled store and caller misuse *)

Lemma exec_cons m o t : exec m (o :: t) = exec (st (step o m)) t.
Proof. reflexivity. Qed.

Lemma exec_snoc m t o : exec m (t ++ [o]) = st (step o (exec m t)).
Proof. unfold exec. by rewrite foldl_snoc. Qed.

Lemma exec_app m t1 t2 : exec m (t1 ++ t2) = exec (exec m t1) t2.
Proof. unfold exec. by rewrite foldl_app. Qed.

Lemma log_cons m o t :
  log m (o :: t) = (o, step o m) :: log (st (step o m)) t.
Proof. reflexivity. Qed.

Lemma log_app m t1 t2 : log m (t1 ++ t2) = log m t1 ++ log (exec m t1) t2.
Proof.
  revert m. induction t1 as [|o t1 IH]; intros m; [done|].
  rewrite <- app_comm_cons, !log_cons, exec_cons, IH. done.
Qed.

Definition start_or_end (o : op) : bool :=
  match o with
  | StartActivity _ _ _ _ _ _ | EndActivity _ _ _ _ => true
  | _ => false
  end.

Definition silent (e : op * result) : Prop :=
  published e.2 = None /\ calls e.2 = [] /\
  exists v, ret e.2 = Returned v.

Lemma disabled_step m o :
  enabled (config m) = false -> start_or_end o = true ->
  st (step o m) = m /\ silent (o, step o m).
Proof.
  intros Hd Ho. destruct o; try discriminate; simpl;
    unfold start_activity, end_activity, silent; rewrite Hd; simpl; eauto.
Qed.

(** C5. With the enabled flag off, [start_activity] returns the empty
    identifier and [end_activity] returns, and neither changes the live
    set, the history, the counters or the agent metrics, nor calls a
    subscriber; the same holds for any sequence of the two. *)
Theorem disabled_is_noop m uuid now ty name md parent i s md' now' t :
  enabled (config m) = false ->
  start_activity uuid now ty name md parent m
    = mkResult m None [] (Returned (Some ""%string))
  /\ end_activity i s md' now' m = mkResult m None [] (Returned None)
  /\ (forallb start_or_end t = true ->
      exec m t = m /\ Forall silent (log m t)).
Proof.
  intros Hd. unfold start_activity, end_activity. rewrite Hd. simpl.
  do 2 (split; [done|]).
  induction t as [|o t IH]; [done|].
  intros [Ho Ht]%andb_prop.
  destruct (disabled_step m o Hd Ho) as [Hst Hsil].
  destruct (IH Ht) as [IH1 IH2].
  rewrite exec_cons, log_cons, Hst. split; [done|].
  by constructor.
Qed.

Definition disabled_config : VisualizationConfig :=
  mkConfig false (1 # 10) 1000 true true false.

Lemma disabled_is_noop_witness :
  start_activity "u1" 0 TOOL_EXECUTION "fetch" None None (init disabled_config)
    = mkResult (init disabled_config) None [] (Returned (Some ""%string))
  /\ end_activity "" COMPLETED None 5 (init disabled_config)
     = mkResult (init disabled_config) None [] (Returned None)
  /\ exec (init disabled_config)
       [StartActivity "u1" 0 TOOL_EXECUTION "fetch" None None;
        EndActivity "" COMPLETED None 5]
     = init disabled_config.
Proof.
  destruct (disabled_is_noop (init disabled_config)
              "u1" 0 TOOL_EXECUTION "fetch" None None "" COMPLETED None 5
              [StartActivity "u1" 0 TOOL_EXECUTION "fetch" None None;
               EndActivity "" COMPLETED None 5])
    as (H1 & H2 & H3); [reflexivity|].
  split; [exact H1|]. split; [exact H2|].
  apply H3. reflexivity.
Defined.

(** C6. [end_activity] on an empty identifier, or on one that is not in the
    live set, changes nothing and returns normally; [add_child_activity]
    changes nothing unless the parent and the child are both live. *)
Theorem misuse_is_noop m i s md now p c :
  i = ""%string \/ activities m !! i = None ->
  ~ (live m p /\ live m c) ->
  end_activity i s md now m = unchanged m None
  /\ add_child_activity p c m = unchanged m None.
Proof.
  intros Hi Hpc. split.
  - unfold end_activity. destruct (negb _); simpl; [done|].
    destruct Hi as [->|Hi]; [done|].
    rewrite Hi. by destruct (String.eqb i "").
  - unfold add_child_activity, live in *. destruct (negb _); [done|].
    destruct (activities m !! p) as [x|] eqn:Hp; [|done].
    destruct (activities m !! c) as [y|] eqn:Hc; [|done].
    destruct Hpc. split; eauto.
Qed.

(** A monitor where "p" was started and ended (it sits in the history) and
    "q" is still live. *)
Definition parent_gone : ActivityMonitor :=
  exec (init default_config)
    [StartActivity "p" 0 AGENT_EXECUTION "run" None None;
     StartActivity "q" 1 TOOL_EXECUTION "fetch" None (Some "p"%string);
     EndActivity "p" COMPLETED None 9].

Lemma misuse_is_noop_witness :
  end_activity "p" FAILED None 12 parent_gone = unchanged parent_gone None
  /\ add_child_activity "p" "q" parent_gone = unchanged parent_gone None.
Proof.
  apply (misuse_is_noop parent_gone "p" FAILED None 12 "p" "q").
  - right. vm_compute. reflexivity.
  - intros [[x Hx] _]. vm_compute in Hx. discriminate.
Defined.

(** ** Ending a live activity *)

Lemma end_activity_live m i a s md now :
  enabled (config m) = true -> i <> ""%string ->
  activities m !! i = Some a ->
  let a' := finalize a s md now in
  let r := end_activity i s md now m in
  published r = Some a'
  /\ activities (st r) = delete i (activities m)
  /\ activities_history (st r)
     = trim (max_history (config m)) (activities_history m ++ [a'])
  /\ stats (st r)
     = update_stats (stats m) s (total_seconds (now - act_timestamp a))
  /\ config (st r) = config m
  /\ agent_metrics (st r) = agent_metrics m
  /\ subscribers (st r) = subscribers m.
Proof.
  intros He Hi Ha. unfold end_activity, after_notify. rewrite He, Ha.
  apply String.eqb_neq in Hi. rewrite Hi. simpl.
  destruct (notify_subscribers _ _) as [cs o]. done.
Qed.

(** C10. Ending a live activity with status cancelled assigns its duration
    and moves the record to the end of the history, and leaves the four
    global counters as they were; a completed end adds one to the completed
    counter and the duration to the total, a failed end adds one to the
    failed counter only. *)
Theorem cancelled_end_frame m i a md now :
  enabled (config m) = true -> i <> ""%string ->
  activities m !! i = Some a ->
  let d := total_seconds (now - act_timestamp a) in
  let r := end_activity i CANCELLED md now m in
  stats (st r) = stats m
  /\ activities (st r) !! i = None
  /\ published r = Some (finalize a CANCELLED md now)
  /\ act_duration (finalize a CANCELLED md now) = Some d
  /\ activities_history (st r)
     = trim (max_history (config m))
         (activities_history m ++ [finalize a CANCELLED md now])
  /\ (0 <= max_history (config m) ->
      last (activities_history (st r)) = Some (finalize a CANCELLED md now))
  /\ stats (st (end_activity i COMPLETED md now m))
     = mkStats (activities_started (stats m))
         (activities_completed (stats m) + 1)
         (activities_failed (stats m))
         (total_duration (stats m) + d)%Q
  /\ stats (st (end_activity i FAILED md now m))
     = mkStats (activities_started (stats m))
         (activities_completed (stats m))
         (activities_failed (stats m) + 1)
         (total_duration (stats m)).
Proof.
  intros He Hi Ha d r.
  destruct (end_activity_live m i a CANCELLED md now He Hi Ha)
    as (Hp & Hl & Hh & Hs & _).
  destruct (end_activity_live m i a COMPLETED md now He Hi Ha)
    as (_ & _ & _ & Hsc & _).
  destruct (end_activity_live m i a FAILED md now He Hi Ha)
    as (_ & _ & _ & Hsf & _).
  subst r. rewrite Hl, Hh, Hs, Hsc, Hsf, lookup_delete_eq.
  repeat split; try done.
  intros Hcap. by apply last_trim_snoc.
Qed.

Lemma cancelled_end_frame_witness :
  stats (st (end_activity "q" CANCELLED None 8 one_live)) = stats one_live
  /\ activities (st (end_activity "q" CANCELLED None 8 one_live))
       !! "q"%string = None
  /\ published (end_activity "q" CANCELLED None 8 one_live)
     = Some (finalize q_started CANCELLED None 8)
  /\ act_duration (finalize q_started CANCELLED None 8)
     = Some (total_seconds (8 - 1)).
Proof.
  pose proof (cancelled_end_frame one_live "q" q_started None 8) as H.
  destruct H as (H1 & H2 & H3 & H4 & _).
  - reflexivity.
  - discriminate.
  - vm_compute. reflexivity.
  - split; [exact H1|]. split; [exact H2|]. split; [exact H3|exact H4].
Defined.

(** ** Recent activities *)

(** A positive limit selects the newest [limit] entries, oldest first. *)
Lemma get_recent_positive limit m :
  0 < limit ->
  get_recent_activities limit m
  = drop (length (activities_history m) - Z.to_nat limit)
      (activities_history m)
  /\ (Z.of_nat (length (get_recent_activities limit m)) <= limit).
Proof.
  intros Hl. unfold get_recent_activities.
  rewrite length_slice_from_last, slice_from_last by done. split; [done|lia].
Qed.

(** A monitor whose history holds two ended activities. *)
Definition two_ended : ActivityMonitor :=
  exec (init default_config)
    [StartActivity "a" 0 TOOL_EXECUTION "fetch" None None;
     StartActivity "b" 1 TOOL_EXECUTION "parse" None None;
     EndActivity "a" COMPLETED None 5;
     EndActivity "b" COMPLETED None 7].

(** C9, at the limit 0: the slice [history[-0:]] is the whole history, so
    [get_recent_activities(0)] returns every entry rather than none. *)
Theorem get_recent_zero_returns_all :
  (forall m, get_recent_activities 0 m = activities_history m)
  /\ act_id <$> get_recent_activities 0 two_ended = ["a"; "b"]%string
  /\ ~ (Z.of_nat (length (get_recent_activities 0 two_ended)) <= 0).
Proof.
  split; [done|]. split; [by vm_compute|].
  vm_compute. intros H. by apply H.
Qed.

(** ** The moving average of an agent *)

Lemma update_agent_metrics_lookup m name u :
  enabled (config m) = true -> enable_agent_metrics (config m) = true ->
  agent_metrics (st (update_agent_metrics name u m)) !! name
  = Some (apply_update u
            (default (new_agent_metrics name) (agent_metrics m !! name))).
Proof.
  intros He Ha. unfold update_agent_metrics. rewrite He, Ha. simpl.
  apply lookup_insert_eq.
Qed.

(** C2. A call of [update_agent_metrics] that carries a response-time sample
    sets the average to [(old_avg * (n - 1) + sample) / n], where [n] is
    the number of completed plus failed tasks after the increments of the
    same call; when [n] is 0 the average keeps its value. *)
Theorem moving_average_step m name u sample :
  enabled (config m) = true -> enable_agent_metrics (config m) = true ->
  mu_response_time u = Some sample ->
  let old := default (new_agent_metrics name) (agent_metrics m !! name) in
  exists new,
    agent_metrics (st (update_agent_metrics name u m)) !! name = Some new
    /\ tasks_completed new
       = (if mu_task_completed u then tasks_completed old + 1
          else tasks_completed old)
    /\ tasks_failed new
       = (if mu_task_failed u then tasks_failed old + 1 else tasks_failed old)
    /\ let n := tasks_completed new + tasks_failed new in
       (0 < n ->
        average_response_time new
        = ((average_response_time old * inject_Z (n - 1) + sample)
           / inject_Z n)%Q)
       /\ (n = 0 -> average_response_time new = average_response_time old).
Proof.
  intros He Ha Hrt old. eexists. split.
  { by apply update_agent_metrics_lookup. }
  fold old. simpl. unfold bump, moving_average. rewrite Hrt.
  do 2 (split; [done|]). split.
  - intros Hn. destruct (Z.gtb_spec
      ((if mu_task_completed u then tasks_completed old + 1
        else tasks_completed old)
       + (if mu_task_failed u then tasks_failed old + 1
          else tasks_failed old)) 0); [done|lia].
  - intros ->. done.
Qed.

Definition completed_with (sample : Q) : metrics_update :=
  mkUpdate true false (Some sample) None None.

Lemma moving_average_step_witness :
  exists new,
    agent_metrics
      (st (update_agent_metrics "coder" (completed_with 3)
             (init default_config))) !! "coder"%string = Some new
    /\ tasks_completed new = 1 /\ tasks_failed new = 0
    /\ average_response_time new = ((0 * inject_Z (1 - 1) + 3) / inject_Z 1)%Q.
Proof.
  destruct (moving_average_step (init default_config) "coder"
              (completed_with 3) 3%Q) as (new & H1 & H2 & H3 & H4);
    [reflexivity..|].
  exists new. cbv zeta in H4. destruct H4 as [H4 _].
  rewrite H2, H3 in H4.
  split; [exact H1|]. split; [exact H2|]. split; [exact H3|].
  apply H4. reflexivity.
Defined.

(** ** What one operation does to the live set and the history *)

Lemma after_notify_st m a r : st (after_notify m a r) = m.
Proof. unfold after_notify. by destruct (notify_subscribers m a). Qed.

Lemma after_notify_published m a r : published (after_notify m a r) = Some a.
Proof. unfold after_notify. by destruct (notify_subscribers m a). Qed.

(** The four ways in which an operation can touch the activities. *)
Inductive effect (m : ActivityMonitor) (o : op) (r : result) : Prop :=
| eff_neutral :
    activities (st r) = activities m ->
    activities_history (st r) = activities_history m ->
    published r = None ->
    effect m o r
| eff_started u now ty name md p a :
    o = StartActivity u now ty name md p ->
    enabled (config m) = true ->
    act_id a = u -> act_duration a = None ->
    activities (st r) = <[u := a]> (activities m) ->
    activities_history (st r) = activities_history m ->
    published r = Some a ->
    effect m o r
| eff_ended i s md now a :
    o = EndActivity i s md now ->
    enabled (config m) = true -> i <> ""%string ->
    activities m !! i = Some a ->
    activities (st r) = delete i (activities m) ->
    activities_history (st r)
    = trim (max_history (config m))
        (activities_history m ++ [finalize a s md now]) ->
    published r = Some (finalize a s md now) ->
    effect m o r
| eff_child p c a :
    o = AddChildActivity p c ->
    activities m !! p = Some a ->
    activities (st r) = <[p := append_child c a]> (activities m) ->
    activities_history (st r) = activities_history m ->
    published r = None ->
    effect m o r.

Lemma step_effect m o : effect m o (step o m).
Proof.
  destruct o as [u now ty name md p|i s md now|p c|n u|cb|cb|sm|b]; simpl.
  - unfold start_activity.
    destruct (enabled (config m)) eqn:He; simpl; [|by apply eff_neutral].
    eapply eff_started; rewrite ?after_notify_st, ?after_notify_published;
      try reflexivity; done.
  - destruct (enabled (config m)) eqn:He;
      [|unfold end_activity; rewrite He; by apply eff_neutral].
    destruct (decide (i = ""%string)) as [->|Hi];
      [unfold end_activity; rewrite He; by apply eff_neutral|].
    destruct (activities m !! i) as [a|] eqn:Ha.
    + destruct (end_activity_live m i a s md now He Hi Ha)
        as (Hp & Hl & Hh & _).
      by eapply eff_ended.
    + unfold end_activity. rewrite Ha.
      destruct (_ || _); by apply eff_neutral.
  - unfold add_child_activity.
    destruct (negb _); [by apply eff_neutral|].
    destruct (activities m !! p) as [a|] eqn:Hp; [|by apply eff_neutral].
    destruct (activities m !! c) as [b|] eqn:Hc; [|by apply eff_neutral].
    by eapply eff_child.
  - unfold update_agent_metrics. destruct (_ || _); by apply eff_neutral.
  - by apply eff_neutral.
  - by apply eff_neutral.
  - unfold collect_sample. destruct (notify _ _). by apply eff_neutral.
  - by apply eff_neutral.
Qed.

Lemma quiet_entry o r :
  published r = None -> created [(o, r)] = [] /\ moved [(o, r)] = [].
Proof. intros H. destruct o; simpl; by rewrite ?H. Qed.

Lemma start_entry u now ty name md p r a :
  published r = Some a ->
  created [(StartActivity u now ty name md p, r)] = [act_id a]
  /\ moved [(StartActivity u now ty name md p, r)] = [].
Proof. intros H. simpl. by rewrite H. Qed.

Lemma end_entry i s md now r a :
  published r = Some a ->
  created [(EndActivity i s md now, r)] = []
  /\ moved [(EndActivity i s md now, r)] = [act_id a].
Proof. intros H. simpl. by rewrite H. Qed.

Lemma uuids_start u now ty name md p :
  uuids [StartActivity u now ty name md p] = [u].
Proof. reflexivity. Qed.

Lemma uuids_end i s md now : uuids [EndActivity i s md now] = [].
Proof. reflexivity. Qed.

(** ** The invariant of the store

    [U] lists the identifiers drawn so far, [C] those of the activities
    created, [M] those moved to the history. *)

Record inv (U C M : list string) (m : ActivityMonitor) : Prop := mkInv {
  inv_live : forall i a,
    activities m !! i = Some a ->
    act_id a = i /\ act_duration a = None /\ i ∈ C;
  inv_hist : forall x, x ∈ activities_history m -> act_id x ∈ M;
  inv_moved : forall i, i ∈ M -> activities m !! i = None;
  inv_created : forall i, i ∈ C -> i ∈ U;
  inv_moved_created : forall i, i ∈ M -> i ∈ C;
  inv_nodup_moved : NoDup M;
  inv_pending : forall i, i ∈ C -> i ∉ M -> live m i;
  inv_nodup_hist : NoDup (act_id <$> activities_history m)
}.

Lemma inv_init cfg : inv [] [] [] (init cfg).
Proof.
  split; simpl; try (intros; set_solver); constructor.
Qed.

Lemma NoDup_drop {A : Type} n (l : list A) : NoDup l -> NoDup (drop n l).
Proof. intros H. eapply sublist_NoDup; [done|apply sublist_drop]. Qed.

Lemma NoDup_fmap_trim {A B : Type} (f : A -> B) cap (l : list A) :
  NoDup (f <$> l) -> NoDup (f <$> trim cap l).
Proof.
  destruct (trim_drop cap l) as [n ->]. rewrite fmap_drop. apply NoDup_drop.
Qed.

Ltac in_snoc :=
  apply elem_of_app;
  first [left; assumption | right; apply list_elem_of_singleton; reflexivity].

Lemma inv_step U C M m o :
  inv U C M m ->
  (forall u, u ∈ uuids [o] -> u ∉ U) ->
  inv (U ++ uuids [o]) (C ++ created [(o, step o m)])
    (M ++ moved [(o, step o m)]) (st (step o m)).
Proof.
  intros [Hlive Hhist Hmoved Hcr Hmc Hnd Hpend Hndh] Hfresh.
  destruct (step_effect m o) as
    [Ha Hh Hp | u now ty name md p a Ho He Hid Hdur Ha Hh Hp
     | i s md now a Ho He Hi Hlk Ha Hh Hp | p c a Ho Hlk Ha Hh Hp].
  - (* the activities are untouched *)
    destruct (quiet_entry o _ Hp) as [-> ->]. rewrite !app_nil_r.
    split; unfold live; rewrite ?Ha, ?Hh; auto.
    intros i Hi. apply elem_of_app. left. by apply Hcr.
  - (* a new activity enters the live set *)
    subst o.
    assert (u ∉ U) as Hu
      by (apply Hfresh; rewrite uuids_start; by apply list_elem_of_singleton).
    assert (u ∉ C) as HuC by (intros ?; by apply Hu, Hcr).
    assert (u ∉ M) as HuM by (intros ?; by apply HuC, Hmc).
    destruct (start_entry u now ty name md p _ a Hp) as [-> ->].
    rewrite uuids_start, Hid, app_nil_r.
    split; unfold live; rewrite ?Ha, ?Hh; auto.
    + intros i b. destruct (decide (u = i)) as [<-|Hne].
      * rewrite lookup_insert_eq. intros [= <-]. repeat split; auto. in_snoc.
      * rewrite lookup_insert_ne by done. intros Hb.
        destruct (Hlive i b Hb) as (? & ? & ?). repeat split; auto. in_snoc.
    + intros i Hi. rewrite lookup_insert_ne; [by apply Hmoved|].
      intros <-. done.
    + intros i [Hi| ->%list_elem_of_singleton]%elem_of_app;
        apply elem_of_app; [left; by apply Hcr|right; by apply list_elem_of_singleton].
    + intros i Hi. apply elem_of_app. left. by apply Hmc.
    + intros i [Hi| ->%list_elem_of_singleton]%elem_of_app HiM.
      * destruct (decide (u = i)) as [<-|Hne]; [done|].
        rewrite lookup_insert_ne by done. by apply Hpend.
      * rewrite lookup_insert_eq. eauto.
  - (* a live activity moves to the history *)
    subst o.
    destruct (Hlive i a Hlk) as (Hid & Hdur & HiC).
    assert (i ∉ M) as HiM.
    { intros HM. apply Hmoved in HM. congruence. }
    destruct (end_entry i s md now _ _ Hp) as [-> ->].
    rewrite uuids_end, !app_nil_r.
    change (act_id (finalize a s md now)) with (act_id a). rewrite Hid.
    split; unfold live; rewrite ?Ha, ?Hh; auto.
    + intros j b Hb. apply lookup_delete_Some in Hb as [Hne Hb].
      by apply Hlive.
    + intros x Hx%elem_of_trim. apply elem_of_app in Hx as [Hx|Hx].
      * apply elem_of_app. left. by apply Hhist.
      * apply list_elem_of_singleton in Hx as ->.
        change (act_id (finalize a s md now)) with (act_id a).
        rewrite Hid. in_snoc.
    + intros j [Hj| ->%list_elem_of_singleton]%elem_of_app.
      * apply lookup_delete_None. right. by apply Hmoved.
      * apply lookup_delete_eq.
    + intros j [Hj| ->%list_elem_of_singleton]%elem_of_app; [by apply Hmc|done].
    + apply NoDup_app. split; [done|]. split; [|apply NoDup_singleton].
      intros j Hj ->%list_elem_of_singleton. done.
    + intros j Hj HjM. rewrite lookup_delete_ne.
      * apply Hpend; [done|]. intros ?. apply HjM. in_snoc.
      * intros ->. apply HjM. in_snoc.
    + apply NoDup_fmap_trim. rewrite fmap_app.
      apply NoDup_app. split; [done|]. split; [|apply NoDup_singleton].
      intros j Hj ->%list_elem_of_singleton.
      apply list_elem_of_fmap in Hj as (x & Hx1 & Hx2).
      apply Hhist in Hx2. rewrite <- Hx1 in Hx2.
      change (act_id (finalize a s md now)) with (act_id a) in Hx2.
      rewrite Hid in Hx2. done.
  - (* a live parent gets one more child *)
    subst o.
    destruct (quiet_entry (AddChildActivity p c) _ Hp) as [-> ->].
    change (uuids [AddChildActivity p c]) with (@nil string).
    rewrite !app_nil_r.
    destruct (Hlive p a Hlk) as (Hid & Hdur & HpC).
    split; unfold live; rewrite ?Ha, ?Hh; auto.
    + intros i b. destruct (decide (p = i)) as [<-|Hne].
      * rewrite lookup_insert_eq. intros [= <-]. done.
      * rewrite lookup_insert_ne by done. by apply Hlive.
    + intros i Hi. destruct (decide (p = i)) as [<-|Hne].
      * apply Hmoved in Hi. congruence.
      * rewrite lookup_insert_ne by done. by apply Hmoved.
    + intros i Hi HiM. destruct (decide (p = i)) as [<-|Hne].
      * rewrite lookup_insert_eq. eauto.
      * rewrite lookup_insert_ne by done. by apply Hpend.
Qed.

Lemma inv_exec cfg t :
  NoDup (uuids t) ->
  inv (uuids t) (created (log (init cfg) t)) (moved (log (init cfg) t))
    (exec (init cfg) t).
Proof.
  induction t as [|o t IH] using rev_ind; intros Hnd.
  - apply inv_init.
  - unfold uuids in Hnd. rewrite omap_app in Hnd. fold (uuids t) in Hnd.
    fold (uuids [o]) in Hnd.
    apply NoDup_app in Hnd as (Hnd & Hfresh & _).
    rewrite log_app, exec_snoc. unfold uuids, created, moved.
    rewrite !omap_app. apply inv_step; [by apply IH|].
    intros u Hu HuU. by apply (Hfresh u).
Qed.

(** An identifier that [start_activity] returned belongs to an activity it
    created and published. *)
Lemma returned_created m u now ty name md p i :
  ret (start_activity u now ty name md p m) = Returned (Some i) ->
  i <> ""%string ->
  i = u /\ exists a,
    published (start_activity u now ty name md p m) = Some a /\ act_id a = i.
Proof.
  unfold start_activity, after_notify.
  destruct (negb _); simpl; [by intros [= <-]|].
  destruct (notify_subscribers _ _) as [cs [[]|e]]; simpl; [|done].
  intros [= <-] _. eauto.
Qed.

(** [end_activity] publishes an activity exactly when it moves it: the
    identifier was live, it is not live afterwards, and the record was
    appended to the history before trimming. *)
Lemma end_activity_published m i s md now x :
  published (end_activity i s md now m) = Some x ->
  act_id x = act_id (default x (activities m !! i))
  /\ live m i
  /\ ~ live (st (end_activity i s md now m)) i
  /\ activities_history (st (end_activity i s md now m))
     = trim (max_history (config m)) (activities_history m ++ [x]).
Proof.
  intros Hp.
  destruct (step_effect m (EndActivity i s md now)) as
    [_ _ Hq | ? ? ? ? ? ? ? [=] | i' s' md' now' a [= <- <- <- <-] He Hi Hlk Ha Hh Hq
     | ? ? ? [=]]; simpl in *.
  - congruence.
  - rewrite Hq in Hp. injection Hp as <-. rewrite Hlk. simpl.
    unfold live. rewrite Ha, Hh, Hlk, lookup_delete_eq.
    repeat split; eauto using is_Some_None.
Qed.

(** The claim C1 as the specification words it: the identifier is in the
    live set or in the history, and not in both. *)
Definition exactly_one_location (m : ActivityMonitor) (i : string) : Prop :=
  (live m i /\ ~ in_history m i) \/ (~ live m i /\ in_history m i).

(** ** Eviction from the history

    The history changes only in [end_activity], which appends the ended
    record and then cuts entries off the front.  [dropped m o] lists the
    identifiers that operation [o], run in state [m], cuts off: the entries
    by which the history, with the ended record appended, is longer than
    the history afterwards.  [evicted m t] collects them along [t]. *)
Definition dropped (m : ActivityMonitor) (o : op) : list string :=
  let r := step o m in
  let before :=
    activities_history m
    ++ match o with
       | EndActivity _ _ _ _ => option_list (published r)
       | _ => []
       end in
  act_id <$> take (length before - length (activities_history (st r))) before.

Fixpoint evicted (m : ActivityMonitor) (t : list op) : list string :=
  match t with
  | [] => []
  | o :: t' => dropped m o ++ evicted (st (step o m)) t'
  end.

Lemma take_drop_length {A : Type} n (l : list A) :
  take (length l - length (drop n l)) l ++ drop n l = l.
Proof.
  rewrite length_drop. destruct (decide (n <= length l)%nat) as [Hle|Hgt].
  - replace (length l - (length l - n))%nat with n by lia. apply take_drop.
  - rewrite (drop_ge l n) by lia. rewrite app_nil_r.
    apply take_ge. lia.
Qed.

(** One operation: the history before it, followed by what it moves, is
    what it cuts off followed by the history after it. *)
Lemma dropped_split m o :
  (act_id <$> activities_history m) ++ moved [(o, step o m)]
  = dropped m o ++ (act_id <$> activities_history (st (step o m))).
Proof.
  unfold dropped. cbv zeta.
  destruct (step_effect m o) as
    [Ha Hh Hp | u now ty name md p a Ho He Hid Hdur Ha Hh Hp
     | i s md now a Ho He Hi Hlk Ha Hh Hp | p c a Ho Hlk Ha Hh Hp].
  - destruct (quiet_entry o _ Hp) as [_ ->]. rewrite Hh, Hp.
    replace (activities_history m
             ++ match o with
                | EndActivity _ _ _ _ => option_list None
                | _ => []
                end) with (activities_history m)
      by (destruct o; by rewrite app_nil_r).
    by rewrite Nat.sub_diag, take_0, app_nil_r.
  - subst o. destruct (start_entry u now ty name md p _ a Hp) as [_ ->].
    rewrite Hh, !app_nil_r. by rewrite Nat.sub_diag, take_0.
  - subst o. destruct (end_entry i s md now _ _ Hp) as [_ ->].
    rewrite Hh, Hp. simpl option_list.
    destruct (trim_drop (max_history (config m))
                (activities_history m ++ [finalize a s md now])) as [n ->].
    rewrite <- fmap_app, take_drop_length. by rewrite fmap_app.
  - subst o.
    destruct (quiet_entry (AddChildActivity p c) _ Hp) as [_ ->].
    rewrite Hh, !app_nil_r. by rewrite Nat.sub_diag, take_0.
Qed.

Lemma moved_cons o r l : moved ((o, r) :: l) = moved [(o, r)] ++ moved l.
Proof. unfold moved. simpl. by destruct (match o with EndActivity _ _ _ _ => _ | _ => _ end). Qed.

(** Along any sequence of operations, the identifiers moved to the history
    are, in order, those cut off again followed by those still there. *)
Lemma moved_split m t :
  (act_id <$> activities_history m) ++ moved (log m t)
  = evicted m t ++ (act_id <$> activities_history (exec m t)).
Proof.
  revert m. induction t as [|o t IH]; intros m.
  - simpl. by rewrite app_nil_r.
  - rewrite log_cons, exec_cons, moved_cons. cbn [evicted].
    rewrite app_assoc, dropped_split, <- !app_assoc. f_equal. apply IH.
Qed.

Lemma max_history_step m o :
  max_history (config (st (step o m))) = max_history (config m).
Proof.
  destruct o as [u now ty name md p|i s md now|p c|n u|cb|cb|sm|b];
    cbn [step].
  - unfold start_activity. destruct (negb _); [done|].
    by rewrite after_notify_st.
  - unfold end_activity. destruct (_ || _); [done|].
    destruct (activities m !! i); [|done]. by rewrite after_notify_st.
  - unfold add_child_activity. destruct (negb _); [done|].
    destruct (activities m !! p); [|done]. by destruct (activities m !! c).
  - unfold update_agent_metrics. by destruct (_ || _).
  - done.
  - done.
  - unfold collect_sample. by destruct (notify _ _).
  - done.
Qed.

Lemma max_history_exec m t :
  max_history (config (exec m t)) = max_history (config m).
Proof.
  induction t as [|o t IH] using rev_ind; [done|].
  by rewrite exec_snoc, max_history_step.
Qed.

(** With a cap of at least one entry, the history holds as many entries as
    were moved to it, up to the cap. *)
Lemma history_length_exec cfg t :
  0 < max_history cfg ->
  length (activities_history (exec (init cfg) t))
  = (length (moved (log (init cfg) t)) `min` Z.to_nat (max_history cfg))%nat.
Proof.
  intros Hcap. induction t as [|o t IH] using rev_ind; [simpl; lia|].
  rewrite log_app, exec_snoc. unfold moved. rewrite omap_app.
  fold (moved (log (init cfg) t)).
  change (log (exec (init cfg) t) [o])
    with [(o, step o (exec (init cfg) t))].
  fold (moved [(o, step o (exec (init cfg) t))]).
  rewrite length_app.
  pose proof (max_history_exec (init cfg) t) as Hc. simpl in Hc.
  destruct (step_effect (exec (init cfg) t) o) as
    [Ha Hh Hp | u now ty name md p a Ho He Hid Hdur Ha Hh Hp
     | i s md now a Ho He Hi Hlk Ha Hh Hp | p c a Ho Hlk Ha Hh Hp].
  - destruct (quiet_entry o _ Hp) as [_ ->]. rewrite Hh, IH. simpl. lia.
  - subst o. destruct (start_entry u now ty name md p _ a Hp) as [_ ->].
    rewrite Hh, IH. simpl. lia.
  - subst o. destruct (end_entry i s md now _ _ Hp) as [_ ->].
    rewrite Hh, Hc, length_trim_pos, length_app, IH by done. simpl. lia.
  - subst o.
    destruct (quiet_entry (AddChildActivity p c) _ Hp) as [_ ->].
    rewrite Hh, IH. simpl. lia.
Qed.

Lemma drop_length_suffix {A : Type} (l k : list A) :
  drop (length (l ++ k) - length k) (l ++ k) = k.
Proof.
  rewrite length_app.
  replace (length l + length k - length k)%nat with (length l) by lia.
  by rewrite drop_app_length.
Qed.

(** C1, amended.  For an identifier that [start_activity] handed out, and
    after any sequence of operations: it is never in the live set and in
    the history at once; it is live exactly as long as no [end_activity]
    call has moved it; that move happens at most once; from that move on
    it is in the history, once, until trimming cuts it off; and so it is in
    exactly one of the two places unless trimming has cut it off, and in
    neither once it has.  The identifiers moved are, in order, those cut
    off followed by those in the history; with a cap of at least one entry
    the history holds the [max_history] identifiers moved last. *)
Theorem live_history_exclusive cfg t i :
  fresh_uuids t ->
  i ∈ created (log (init cfg) t) ->
  let m := exec (init cfg) t in
  let l := log (init cfg) t in
  let e := evicted (init cfg) t in
  ~ (live m i /\ in_history m i)
  /\ (live m i <-> i ∉ moved l)
  /\ (in_history m i <-> i ∈ moved l /\ i ∉ e)
  /\ (exactly_one_location m i <-> i ∉ e)
  /\ (i ∈ e -> ~ live m i /\ ~ in_history m i)
  /\ moved l = e ++ (act_id <$> activities_history m)
  /\ NoDup (moved l)
  /\ NoDup (act_id <$> activities_history m)
  /\ (0 < max_history cfg ->
      act_id <$> activities_history m
      = drop (length (moved l) - Z.to_nat (max_history cfg)) (moved l)).
Proof.
  intros [Hnd _] Hc m l e.
  destruct (inv_exec cfg t Hnd) as [Hlive Hhist Hmoved Hcr Hmc HndM Hpend Hndh].
  fold m l in Hlive, Hhist, Hmoved, Hmc, HndM, Hpend, Hndh, Hc.
  pose proof (moved_split (init cfg) t) as Hsplit.
  change (act_id <$> activities_history (init cfg)) with (@nil string) in Hsplit.
  rewrite app_nil_l in Hsplit. fold m l e in Hsplit.
  assert (NoDup (e ++ (act_id <$> activities_history m))) as Hnd2
    by (by rewrite <- Hsplit).
  apply NoDup_app in Hnd2 as (_ & Hdisj & _).
  assert (in_history m i <-> i ∈ moved l /\ i ∉ e) as Hin.
  { unfold in_history. rewrite Hsplit. split.
    - intros Hi. split; [apply elem_of_app; by right|].
      intros He. by apply (Hdisj i).
    - intros [[He|Hi]%elem_of_app Hne]; done. }
  assert (live m i <-> i ∉ moved l) as Hl.
  { split; [|by apply Hpend].
    intros [a Ha] HM. apply Hmoved in HM. congruence. }
  assert (i ∈ e -> ~ live m i /\ ~ in_history m i) as Hev.
  { intros He. split.
    - intros HL. apply Hl in HL. apply HL. rewrite Hsplit.
      apply elem_of_app. by left.
    - intros HH. by apply (Hdisj i). }
  split; [intros [H1 H2]; apply Hl in H1; apply Hin in H2; tauto|].
  split; [exact Hl|]. split; [exact Hin|]. split.
  { unfold exactly_one_location. split.
    - intros [[H1 H2]|[H1 H2]] He; destruct (Hev He); done.
    - intros He. destruct (decide (i ∈ moved l)) as [HM|HM].
      + right. split; [rewrite Hl; tauto|apply Hin; done].
      + left. split; [by apply Hl|rewrite Hin; tauto]. }
  split; [exact Hev|]. split; [exact Hsplit|].
  split; [exact HndM|]. split; [exact Hndh|].
  intros Hcap.
  pose proof (history_length_exec cfg t Hcap) as Hlen. fold m l in Hlen.
  assert (length (moved l) - Z.to_nat (max_history cfg)
          = length (moved l) - length (act_id <$> activities_history m))%nat
    as -> by (rewrite length_fmap, Hlen; lia).
  rewrite Hsplit. by rewrite drop_length_suffix.
Qed.

(** A history of one entry, and two activities started and ended. *)
Definition cap_one : VisualizationConfig :=
  mkConfig true (1 # 10) 1 true true false.

Definition two_rounds : list op :=
  [StartActivity "a" 0 TOOL_EXECUTION "fetch" None None;
   StartActivity "b" 1 TOOL_EXECUTION "parse" None None;
   EndActivity "a" COMPLETED None 5;
   EndActivity "b" COMPLETED None 7].

Lemma two_rounds_fresh : fresh_uuids two_rounds.
Proof.
  split.
  - apply (bool_decide_unpack _). by vm_compute.
  - apply (bool_decide_unpack _). by vm_compute.
Defined.

Lemma two_rounds_created :
  "a"%string ∈ created (log (init default_config) two_rounds)
  /\ "a"%string ∈ created (log (init cap_one) two_rounds).
Proof. split; apply (bool_decide_unpack _); by vm_compute. Defined.

(** With the default cap "a" stays in the history after "b" has ended;
    with a cap of one entry it has been cut off, and the history holds the
    identifier moved last. *)
Lemma live_history_exclusive_witness :
  exactly_one_location (exec (init default_config) two_rounds) "a"
  /\ in_history (exec (init default_config) two_rounds) "a"
  /\ moved (log (init cap_one) two_rounds) = ["a"; "b"]%string
  /\ evicted (init cap_one) two_rounds = ["a"]%string
  /\ act_id <$> activities_history (exec (init cap_one) two_rounds)
     = ["b"]%string.
Proof.
  destruct (live_history_exclusive default_config two_rounds "a"
              two_rounds_fresh (proj1 two_rounds_created))
    as (_ & _ & Hin & Hone & _).
  destruct (live_history_exclusive cap_one two_rounds "a"
              two_rounds_fresh (proj2 two_rounds_created))
    as (_ & _ & _ & _ & _ & _ & _ & _ & Hcap).
  split; [|split; [|split; [|split]]].
  - apply Hone. apply (bool_decide_unpack _). by vm_compute.
  - apply Hin. split; apply (bool_decide_unpack _); by vm_compute.
  - by vm_compute.
  - by vm_compute.
  - rewrite Hcap by done. by vm_compute.
Defined.

(** C1 as stated fails once the history is trimmed: with a cap of one
    entry, "a" is evicted when "b" ends, and is then neither live nor in
    the history. *)
Lemma evicted_is_nowhere :
  fresh_uuids two_rounds
  /\ "a"%string ∈ created (log (init cap_one) two_rounds)
  /\ ~ exactly_one_location (exec (init cap_one) two_rounds) "a".
Proof.
  split; [exact two_rounds_fresh|].
  split; [exact (proj2 two_rounds_created)|].
  unfold exactly_one_location, live, in_history.
  intros [[[x Hx] _]|[_ Hin]].
  - vm_compute in Hx. discriminate.
  - apply (bool_decide_pack _) in Hin. vm_compute in Hin. done.
Qed.

(** ** The recorded duration *)

(** Once [i] has left the live set with the record [X], no operation brings
    it back (its identifier is not drawn again) and the record stays as it
    is while it remains in the history. *)
Record settled (i : string) (X : Activity) (m : ActivityMonitor) : Prop := {
  settled_gone : activities m !! i = None;
  settled_keys : forall j b, activities m !! j = Some b -> act_id b = j;
  settled_rec : forall x,
    x ∈ activities_history m -> act_id x = i -> x = X
}.

Lemma settled_step i X m o :
  settled i X m -> i ∉ uuids [o] -> settled i X (st (step o m)).
Proof.
  intros [Hgone Hkeys Hrec] Hi.
  destruct (step_effect m o) as
    [Ha Hh Hp | u now ty name md p a Ho He Hid Hdur Ha Hh Hp
     | j s md now a Ho He Hj Hlk Ha Hh Hp | p c a Ho Hlk Ha Hh Hp].
  - split; rewrite ?Ha, ?Hh; auto.
  - subst o. rewrite uuids_start in Hi.
    assert (u <> i) as Hne by (intros ->; apply Hi, list_elem_of_here).
    split; rewrite ?Ha, ?Hh; auto.
    + by rewrite lookup_insert_ne.
    + intros j b. destruct (decide (u = j)) as [<-|Hn].
      * rewrite lookup_insert_eq. by intros [= <-].
      * rewrite lookup_insert_ne by done. apply Hkeys.
  - assert (j <> i) as Hne by (intros ->; congruence).
    split; rewrite ?Ha, ?Hh.
    + apply lookup_delete_None. by right.
    + intros k b [_ Hb]%lookup_delete_Some. by apply Hkeys.
    + intros x [Hx| ->%list_elem_of_singleton]%elem_of_trim%elem_of_app;
        [by apply Hrec|].
      change (act_id (finalize a s md now)) with (act_id a).
      rewrite (Hkeys j a Hlk). done.
  - assert (p <> i) as Hne by (intros ->; congruence).
    split; rewrite ?Ha, ?Hh; auto.
    + by rewrite lookup_insert_ne.
    + intros j b. destruct (decide (p = j)) as [<-|Hn].
      * rewrite lookup_insert_eq. intros [= <-]. exact (Hkeys p a Hlk).
      * rewrite lookup_insert_ne by done. apply Hkeys.
Qed.

Lemma settled_exec i X t : forall m,
  settled i X m -> i ∉ uuids t -> settled i X (exec m t).
Proof.
  induction t as [|o t IH]; intros m Hs Hi; [done|].
  rewrite exec_cons. change (o :: t) with ([o] ++ t) in Hi.
  unfold uuids in Hi. rewrite omap_app in Hi.
  apply not_elem_of_app in Hi as [Hi1 Hi2].
  apply IH; [by apply settled_step|done].
Qed.

(** C4. A live activity has no duration.  The [end_activity] call that
    ends it records the end time minus the start time.  From then on an
    [end_activity] call with the same identifier changes nothing, and the
    record with that identifier found in the history is the one recorded
    then, with its duration. *)
Theorem duration_set_once cfg t i a s md now :
  fresh_uuids t ->
  let m := exec (init cfg) t in
  enabled (config m) = true -> i <> ""%string ->
  activities m !! i = Some a ->
  let a' := finalize a s md now in
  let r := end_activity i s md now m in
  act_duration a = None
  /\ published r = Some a'
  /\ act_duration a' = Some (total_seconds (now - act_timestamp a))
  /\ activities_history (st r)
     = trim (max_history (config m)) (activities_history m ++ [a'])
  /\ forall t' s' md' now',
       i ∉ uuids t' ->
       let m' := exec (st r) t' in
       end_activity i s' md' now' m' = unchanged m' None
       /\ forall x, x ∈ activities_history m' -> act_id x = i -> x = a'.
Proof.
  intros [Hnd _] m He Hi Ha a' r.
  destruct (inv_exec cfg t Hnd) as [Hlive Hhist Hmoved _ _ _ _ _].
  fold m in Hlive, Hhist, Hmoved.
  destruct (Hlive i a Ha) as (Hid & Hdur & _).
  destruct (end_activity_live m i a s md now He Hi Ha)
    as (Hp & Hl & Hh & _).
  fold a' r in Hp, Hl, Hh.
  do 4 (split; [done|]).
  assert (settled i a' (st r)) as Hs.
  { split; rewrite ?Hl, ?Hh.
    - apply lookup_delete_eq.
    - intros j b [_ Hb]%lookup_delete_Some. by apply Hlive.
    - intros x [Hx| ->%list_elem_of_singleton]%elem_of_trim%elem_of_app Hx';
        [|done].
      apply Hhist in Hx. rewrite Hx' in Hx. apply Hmoved in Hx. congruence. }
  intros t' s' md' now' Ht'. cbv zeta.
  destruct (settled_exec i a' t' (st r) Hs Ht') as [Hgone _ Hrec].
  split; [|exact Hrec].
  unfold end_activity. rewrite Hgone.
  by destruct (_ || _).
Qed.

Lemma duration_set_once_witness :
  act_duration q_started = None
  /\ published (end_activity "q" COMPLETED None 8 one_live)
     = Some (finalize q_started COMPLETED None 8)
  /\ act_duration (finalize q_started COMPLETED None 8)
     = Some (total_seconds (8 - 1))
  /\ end_activity "q" FAILED None 20
       (st (end_activity "q" COMPLETED None 8 one_live))
     = unchanged (st (end_activity "q" COMPLETED None 8 one_live)) None.
Proof.
  destruct (duration_set_once default_config
              [StartActivity "q" 1 TOOL_EXECUTION "fetch" None None]
              "q" q_started COMPLETED None 8)
    as (H1 & H2 & H3 & _ & H5).
  - split; apply (bool_decide_unpack _); by vm_compute.
  - reflexivity.
  - discriminate.
  - vm_compute. reflexivity.
  - split; [exact H1|]. split; [exact H2|]. split; [exact H3|].
    apply (H5 [] FAILED None 20). apply not_elem_of_nil.
Defined.

(** ** The bounded history *)

Lemma trim_trim_app {A : Type} cap (l k : list A) :
  0 < cap -> trim cap (trim cap l ++ k) = trim cap (l ++ k).
Proof.
  intros Hc. rewrite !trim_pos by done.
  rewrite !length_app, length_drop.
  destruct (decide (length l <= Z.to_nat cap)%nat) as [Hle|Hgt].
  - replace (length l - Z.to_nat cap)%nat with 0%nat by lia.
    rewrite drop_0. do 2 f_equal. lia.
  - rewrite <- (drop_app_le l k (length l - Z.to_nat cap)) by lia.
    rewrite drop_drop. f_equal. lia.
Qed.

Lemma trim_short {A : Type} cap (l : list A) :
  Z.of_nat (length l) <= cap -> trim cap l = l.
Proof.
  intros Hl. unfold trim.
  by destruct (Z.gtb_spec (Z.of_nat (length l)) cap); [lia|].
Qed.

(** One [end_activity] call: identifier, status, metadata and clock. *)
Definition end_call : Type :=
  string * ActivityStatus * option (gmap string pyval) * Z.

Definition end_op (e : end_call) : op :=
  let '(i, s, md, now) := e in EndActivity i s md now.

Definition end_id (e : end_call) : string := e.1.1.1.

(** The record that the call [e] leaves in the history, when its activity
    is live in [m]. *)
Definition ended_record (m : ActivityMonitor) (e : end_call)
  : option Activity :=
  let '(i, s, md, now) := e in
  (fun a => finalize a s md now) <$> activities m !! i.

Lemma history_after_ends ends : forall m,
  enabled (config m) = true ->
  0 < max_history (config m) ->
  Z.of_nat (length (activities_history m)) <= max_history (config m) ->
  NoDup (end_id <$> ends) ->
  (forall e, e ∈ ends -> end_id e <> ""%string /\ live m (end_id e)) ->
  activities_history (exec m (end_op <$> ends))
  = trim (max_history (config m))
      (activities_history m ++ omap (ended_record m) ends)
  /\ length (omap (ended_record m) ends) = length ends.
Proof.
  induction ends as [|[[[i s] md] now] ends IH];
    intros m He Hcap Hlen Hnd Hlive.
  - simpl. rewrite app_nil_r. by rewrite trim_short.
  - rewrite fmap_cons in Hnd. apply NoDup_cons in Hnd as [Hi Hnd].
    destruct (Hlive (i, s, md, now)) as [Hne [a Ha]]; [apply list_elem_of_here|].
    unfold end_id in Hne, Ha. simpl in Hne, Ha.
    destruct (end_activity_live m i a s md now He Hne Ha)
      as (_ & Hl & Hh & _ & Hc & _).
    rewrite fmap_cons, exec_cons.
    change (step (end_op (i, s, md, now)) m) with (end_activity i s md now m).
    remember (st (end_activity i s md now m)) as m1 eqn:Hm1.
    assert (forall e, e ∈ ends -> ended_record m1 e = ended_record m e) as Hrec.
    { intros [[[j s'] md'] now'] Hj. cbn [ended_record]. rewrite Hl.
      rewrite lookup_delete_ne; [done|].
      intros ->. apply Hi, list_elem_of_fmap. by exists (j, s', md', now'). }
    destruct (IH m1) as [IH1 IH2].
    + by rewrite Hc.
    + by rewrite Hc.
    + rewrite Hc, Hh, length_trim_pos by done. lia.
    + done.
    + intros e Hin. destruct (Hlive e) as [? [b Hb]];
        [by apply list_elem_of_further|].
      split; [done|]. exists b. rewrite Hl.
      rewrite lookup_delete_ne; [done|].
      intros ->. apply Hi, list_elem_of_fmap. by exists e.
    + assert (omap (ended_record m1) ends = omap (ended_record m) ends)
        as Hsame.
      { apply list_omap_ext, Forall2_same_length_lookup. split; [done|].
        intros k x y Hx Hy. rewrite Hx in Hy. injection Hy as <-.
        apply Hrec. by eapply list_elem_of_lookup_2. }
      rewrite Hsame in IH1, IH2.
      rewrite IH1, Hc, Hh. simpl. rewrite Ha. simpl.
      rewrite trim_trim_app by done.
      rewrite <- app_assoc. simpl. split; [done|]. f_equal. exact IH2.
Qed.

(** For a cap of at least one entry, the history after [N >= cap]
    effective [end_activity] calls has exactly [cap] entries: the records
    ended last, in the order in which they ended. *)
Theorem history_keeps_newest m ends :
  enabled (config m) = true ->
  0 < max_history (config m) ->
  Z.of_nat (length (activities_history m)) <= max_history (config m) ->
  NoDup (end_id <$> ends) ->
  (forall e, e ∈ ends -> end_id e <> ""%string /\ live m (end_id e)) ->
  max_history (config m) <= Z.of_nat (length ends) ->
  let h := activities_history (exec m (end_op <$> ends)) in
  Z.of_nat (length h) = max_history (config m)
  /\ h = drop (length ends - Z.to_nat (max_history (config m)))
           (omap (ended_record m) ends).
Proof.
  intros He Hcap Hlen Hnd Hlive HN h.
  destruct (history_after_ends ends m He Hcap Hlen Hnd Hlive) as [Hh HF].
  subst h. rewrite Hh, trim_pos by done.
  rewrite length_app, HF.
  rewrite drop_app_ge by lia.
  replace (length (activities_history m) + length ends
           - Z.to_nat (max_history (config m))
           - length (activities_history m))%nat
    with (length ends - Z.to_nat (max_history (config m)))%nat by lia.
  split; [|done]. rewrite length_drop, HF. lia.
Qed.

(** With a cap of 0 an effective [end_activity] only ever appends. *)
Lemma zero_cap_end_grows m i a s md now :
  enabled (config m) = true -> i <> ""%string ->
  activities m !! i = Some a ->
  max_history (config m) = 0 ->
  activities_history (st (end_activity i s md now m))
  = activities_history m ++ [finalize a s md now].
Proof.
  intros He Hi Ha Hcap.
  destruct (end_activity_live m i a s md now He Hi Ha) as (_ & _ & Hh & _).
  by rewrite Hh, Hcap, trim_zero.
Qed.

Definition cap_zero : VisualizationConfig :=
  mkConfig true (1 # 10) 0 true true false.

(** C3, at the cap 0: the test [len(history) > 0] passes and the slice
    [history[-0:]] is the whole list, so nothing is evicted; after two
    ends the history holds both records instead of none. *)
Theorem zero_cap_never_trims :
  (forall (A : Type) (h : list A), trim 0 h = h)
  /\ act_id <$> activities_history (exec (init cap_zero) two_rounds)
     = ["a"; "b"]%string
  /\ length (activities_history (exec (init cap_zero) two_rounds))
     <> Z.to_nat (max_history cap_zero).
Proof.
  split; [intros A h; apply trim_zero|].
  split; [by vm_compute|]. by vm_compute.
Qed.

(** The scenario of the specification: a cap of three entries and five
    activities ended one after the other leave the last three. *)
Definition cap_three : VisualizationConfig :=
  mkConfig true (1 # 10) 3 true true false.

Definition five_rounds : list op :=
  ((fun u => StartActivity u 0 WORKFLOW_STEP "step" None None)
     <$> ["a"; "b"; "c"; "d"; "e"]%string)
  ++ ((fun u => EndActivity u COMPLETED None 4)
        <$> ["a"; "b"; "c"; "d"; "e"]%string).

Example five_ends_cap_three :
  act_id <$> activities_history (exec (init cap_three) five_rounds)
  = ["c"; "d"; "e"]%string.
Proof. by vm_compute. Qed.

(** ** The average over a sequence of updates *)

(** The sample of a call that also carries a completed or failed key. *)
Definition accompanied (u : metrics_update) : option Q :=
  if mu_task_completed u || mu_task_failed u then mu_response_time u
  else None.

Definition Qsum (l : list Q) : Q := foldr Qplus 0%Q l.

(** The arithmetic mean; the mean of no sample is read as the initial
    average 0.0. *)
Definition mean (l : list Q) : Q :=
  match l with
  | [] => 0%Q
  | _ => (Qsum l / inject_Z (Z.of_nat (length l)))%Q
  end.

(** The updates addressed to the agent [name], in order. *)
Definition own (name : string) (cs : list (string * metrics_update))
  : list metrics_update :=
  (filter (fun c => c.1 = name) cs).*2.

Definition update_op (c : string * metrics_update) : op :=
  UpdateAgentMetrics c.1 c.2.

(** The calling discipline of [hooks.monitor_agent_execution]: a call that
    counts a task carries exactly one of the two keys together with a
    sample, and no sample comes without a key once a task was counted.
    [counted] says whether a task was counted before. *)
Fixpoint paired (counted : bool) (us : list metrics_update) : bool :=
  match us with
  | [] => true
  | u :: rest =>
      match mu_task_completed u, mu_task_failed u with
      | false, false =>
          (negb counted || negb (bool_decide (is_Some (mu_response_time u))))
          && paired counted rest
      | true, true => false
      | _, _ => bool_decide (is_Some (mu_response_time u)) && paired true rest
      end
  end.

Definition fold_updates (am : AgentMetrics) (us : list metrics_update)
  : AgentMetrics :=
  foldl (fun am u => apply_update u am) am us.

Definition entity_after (name : string) (o : option AgentMetrics)
  (us : list metrics_update) : option AgentMetrics :=
  foldl (fun o u => Some (apply_update u (default (new_agent_metrics name) o)))
    o us.

Lemma entity_after_some name am us :
  entity_after name (Some am) us = Some (fold_updates am us).
Proof.
  revert am. induction us as [|u us IH]; intros am; [done|].
  unfold entity_after, fold_updates in *. simpl. apply IH.
Qed.

Lemma entity_after_cons name o u us :
  entity_after name o (u :: us)
  = Some (fold_updates (default (new_agent_metrics name) o) (u :: us)).
Proof.
  change (entity_after name o (u :: us))
    with (entity_after name
            (Some (apply_update u (default (new_agent_metrics name) o))) us).
  by rewrite entity_after_some.
Qed.

Lemma agent_after_updates name cs : forall m,
  enabled (config m) = true -> enable_agent_metrics (config m) = true ->
  agent_metrics (exec m (update_op <$> cs)) !! name
  = entity_after name (agent_metrics m !! name) (own name cs).
Proof.
  induction cs as [|[n u] cs IH]; intros m He Ha; [done|].
  rewrite fmap_cons, exec_cons.
  change (step (update_op (n, u)) m) with (update_agent_metrics n u m).
  assert (config (st (update_agent_metrics n u m)) = config m) as Hc.
  { unfold update_agent_metrics. by destruct (_ || _). }
  rewrite IH by (by rewrite Hc). unfold own. rewrite filter_cons. simpl.
  destruct (decide (n = name)) as [->|Hne].
  - rewrite update_agent_metrics_lookup by done. done.
  - unfold update_agent_metrics. rewrite He, Ha. simpl.
    by rewrite lookup_insert_ne.
Qed.

(** The running state of the average: [k] tasks counted, and the average
    times [k] is the sum [sigma] of the samples taken. *)
Record running (am : AgentMetrics) (k : Z) (sigma : Q) : Prop := {
  run_total : tasks_completed am + tasks_failed am = k;
  run_nonneg : 0 <= k;
  run_sum : (average_response_time am * inject_Z k == sigma)%Q;
  run_zero : k = 0 -> (average_response_time am == 0)%Q
}.

Lemma inject_Z_pos_neq k : 0 < k -> ~ (inject_Z k == 0)%Q.
Proof. intros Hk. unfold Qeq. simpl. lia. Qed.

Lemma running_sample am k sigma u s :
  running am k sigma ->
  xorb (mu_task_completed u) (mu_task_failed u) = true ->
  mu_response_time u = Some s ->
  running (apply_update u am) (k + 1) (sigma + s)%Q.
Proof.
  intros [Ht Hk Hs Hz] Hx Hrt.
  assert (bump (mu_task_completed u) (tasks_completed am)
          + bump (mu_task_failed u) (tasks_failed am) = k + 1) as Hn.
  { unfold bump. destruct (mu_task_completed u), (mu_task_failed u);
      simpl in Hx; try discriminate; lia. }
  split; simpl; rewrite ?Hn, ?Hrt; try lia.
  unfold moving_average.
  destruct (Z.gtb_spec (k + 1) 0) as [_|?]; [|lia].
  replace (k + 1 - 1) with k by lia. rewrite <- Hs.
  field. apply inject_Z_pos_neq. lia.
Qed.

Lemma running_idle am k sigma u :
  running am k sigma ->
  mu_task_completed u = false -> mu_task_failed u = false ->
  k = 0 \/ mu_response_time u = None ->
  running (apply_update u am) k sigma.
Proof.
  intros [Ht Hk Hs Hz] Hc Hf Hrt.
  assert (average_response_time (apply_update u am)
          = average_response_time am) as Havg.
  { simpl. rewrite Hc, Hf. simpl. rewrite Ht. unfold moving_average.
    destruct Hrt as [Hk0 | Hnone].
    - rewrite Hk0. by destruct (mu_response_time u).
    - by rewrite Hnone. }
  split; rewrite ?Havg; try done.
  simpl. by rewrite Hc, Hf.
Qed.

Lemma paired_cons counted u us :
  paired counted (u :: us) = true ->
  (xorb (mu_task_completed u) (mu_task_failed u) = true
   /\ (exists s, mu_response_time u = Some s) /\ paired true us = true)
  \/ (mu_task_completed u = false /\ mu_task_failed u = false
      /\ (counted = false \/ mu_response_time u = None)
      /\ paired counted us = true).
Proof.
  simpl.
  destruct (mu_task_completed u), (mu_task_failed u); try discriminate;
    intros [H1 H2]%andb_prop.
  1,2: left; apply bool_decide_eq_true in H1; by repeat split.
  right. repeat split; try done.
  destruct counted; [right|by left]. simpl in H1.
  apply negb_true_iff, bool_decide_eq_false in H1.
  destruct (mu_response_time u); [|done]. destruct H1. eauto.
Qed.

Lemma accompanied_flagged u s :
  xorb (mu_task_completed u) (mu_task_failed u) = true ->
  mu_response_time u = Some s -> accompanied u = Some s.
Proof.
  unfold accompanied.
  by destruct (mu_task_completed u), (mu_task_failed u).
Qed.

Lemma accompanied_idle u :
  mu_task_completed u = false -> mu_task_failed u = false ->
  accompanied u = None.
Proof. unfold accompanied. by intros -> ->. Qed.

Lemma omap_cons_Some {A B : Type} (f : A -> option B) x y l :
  f x = Some y -> omap f (x :: l) = y :: omap f l.
Proof. intros H. simpl. by rewrite H. Qed.

Lemma omap_cons_None {A B : Type} (f : A -> option B) x l :
  f x = None -> omap f (x :: l) = omap f l.
Proof. intros H. simpl. by rewrite H. Qed.

Lemma Qsum_cons x l : Qsum (x :: l) = (x + Qsum l)%Q.
Proof. reflexivity. Qed.

Lemma running_fold us : forall am k sigma,
  running am k sigma ->
  paired (0 <? k) us = true ->
  running (fold_updates am us)
    (k + Z.of_nat (length (omap accompanied us)))
    (sigma + Qsum (omap accompanied us))%Q.
Proof.
  induction us as [|u us IH]; intros am k sigma Hr Hp.
  - destruct Hr as [Ht Hk Hs Hz].
    split; simpl; rewrite ?Z.add_0_r; try done.
    rewrite Hs. unfold Qsum. simpl. ring.
  - change (fold_updates am (u :: us))
      with (fold_updates (apply_update u am) us).
    destruct (paired_cons _ _ _ Hp)
      as [(Hx & [s Hs] & Hp')|(Hc & Hf & Hrt & Hp')].
    + rewrite (omap_cons_Some _ _ s) by by apply accompanied_flagged.
      rewrite length_cons, Nat2Z.inj_succ, Qsum_cons.
      pose proof (running_sample am k sigma u s Hr Hx Hs) as Hr'.
      assert (0 <= k) as Hk by apply Hr.
      assert (paired (0 <? k + 1) us = true) as Hp''.
      { replace (0 <? k + 1) with true; [done|].
        symmetry. apply Z.ltb_lt. lia. }
      destruct (IH _ _ _ Hr' Hp'') as [Ht' Hk' Hs' Hz'].
      split; [rewrite Ht'; lia|lia| |intros; lia].
      replace (k + Z.succ (Z.of_nat (length (omap accompanied us))))
        with (k + 1 + Z.of_nat (length (omap accompanied us))) by lia.
      rewrite Hs'. ring.
    + rewrite omap_cons_None by by apply accompanied_idle.
      apply IH; [|done]. apply running_idle; try done.
      destruct Hrt as [Hk0|Hnone]; [left|by right].
      apply Z.ltb_ge in Hk0. destruct Hr as [_ Hk _ _]. lia.
Qed.

Lemma running_mean am S :
  running am (0 + Z.of_nat (length S)) (0 + Qsum S)%Q ->
  (average_response_time am == mean S)%Q.
Proof.
  intros [_ _ Hs Hz]. destruct S as [|x S]; [by apply Hz|].
  unfold mean. rewrite Z.add_0_l in Hs. rewrite <- (Qplus_0_l (Qsum (x :: S))).
  rewrite <- Hs. field. apply inject_Z_pos_neq. simpl. lia.
Qed.

(** C8, amended.  For an agent first seen in the sequence, whose calls
    follow the discipline [paired], the average after the sequence is the
    arithmetic mean (in exact arithmetic) of the samples that came with a
    completed or failed key; calls for other agents may be interleaved. *)
Theorem average_is_mean m name cs :
  enabled (config m) = true -> enable_agent_metrics (config m) = true ->
  agent_metrics m !! name = None ->
  paired false (own name cs) = true ->
  let m' := exec m (update_op <$> cs) in
  (own name cs <> [] -> is_Some (agent_metrics m' !! name))
  /\ forall am,
       agent_metrics m' !! name = Some am ->
       (average_response_time am == mean (omap accompanied (own name cs)))%Q.
Proof.
  intros He Ha Hnew Hp m'. subst m'.
  rewrite agent_after_updates, Hnew by done.
  destruct (own name cs) as [|u us] eqn:Hown; [split; [done|]; by intros am|].
  rewrite entity_after_cons. split; [eauto|].
  intros am [= <-]. apply running_mean.
  apply (running_fold (u :: us) (new_agent_metrics name) 0 0%Q); [|done].
  by split.
Qed.

Definition sample_only (sample : Q) : metrics_update :=
  mkUpdate false false (Some sample) None None.

Definition count_only : metrics_update :=
  mkUpdate true false None None None.

Definition three_updates : list (string * metrics_update) :=
  [("coder"%string, completed_with 10);
   ("tester"%string, sample_only 7);
   ("coder"%string, completed_with 20)].

Lemma average_is_mean_witness :
  (average_response_time
     (default (new_agent_metrics "coder")
        (agent_metrics
           (exec (init default_config) (update_op <$> three_updates))
           !! "coder"%string))
   == mean [10; 20])%Q.
Proof.
  apply (average_is_mean (init default_config) "coder" three_updates);
    reflexivity.
Defined.

(** C8 as stated fails in two ways: a sample that comes without a key
    after a task was counted replaces the average, and a task counted
    without a sample is averaged in as if it had taken no time. *)
Lemma average_is_not_mean :
  (exists am,
     agent_metrics
       (exec (init default_config)
          (update_op <$> [("coder"%string, completed_with 10);
                          ("coder"%string, sample_only 20)]))
       !! "coder"%string = Some am
     /\ (average_response_time am == 20)%Q
     /\ (mean (omap accompanied [completed_with 10; sample_only 20]) == 10)%Q
     /\ ~ (average_response_time am
           == mean (omap accompanied [completed_with 10; sample_only 20]))%Q)
  /\ (exists am,
        agent_metrics
          (exec (init default_config)
             (update_op <$> [("coder"%string, count_only);
                             ("coder"%string, completed_with 10)]))
          !! "coder"%string = Some am
        /\ (average_response_time am == 5)%Q
        /\ ~ (average_response_time am
              == mean (omap accompanied [count_only; completed_with 10]))%Q).
Proof.
  split; eexists; (split; [vm_compute; reflexivity|]);
    repeat split; try (by vm_compute); vm_compute; discriminate.
Qed.

(** * The rest of monitor.py *)

(** ** [get_statistics] *)

(** The dictionary returned by [get_statistics]: a copy of the four
    counters and the five entries computed from the state. *)
Record Statistics := mkStatistics {
  s_activities_started : Z;
  s_activities_completed : Z;
  s_activities_failed : Z;
  s_total_duration : Q;
  s_active_activities : Z;
  s_total_activities : Z;
  s_system_metrics_count : Z;
  s_agents_monitored : Z;
  s_average_duration : Q
}.

Definition get_statistics (m : ActivityMonitor) : Statistics :=
  let s := stats m in
  mkStatistics (activities_started s) (activities_completed s)
    (activities_failed s) (total_duration s)
    (Z.of_nat (size (activities m)))
    (Z.of_nat (length (activities_history m)))
    (Z.of_nat (length (system_metrics m)))
    (Z.of_nat (size (agent_metrics m)))
    (if activities_completed s >? 0 then
       (total_duration s / inject_Z (activities_completed s))%Q
     else 0%Q).

(** [get_agent_metrics]: a shallow copy of the dictionary. *)
Definition get_agent_metrics (m : ActivityMonitor) : gmap string AgentMetrics :=
  agent_metrics m.

(** The durations recorded by the ends with status completed, and the
    identifiers of the ends with status failed, in a log. *)
Definition completed_durations (l : list (op * result)) : list Q :=
  omap (fun e => match e with
                 | (EndActivity _ COMPLETED _ _, r) =>
                     published r ≫= act_duration
                 | _ => None
                 end) l.

Definition failed_ends (l : list (op * result)) : list string :=
  omap (fun e => match e with
                 | (EndActivity _ FAILED _ _, r) => act_id <$> published r
                 | _ => None
                 end) l.

Lemma Qsum_app l k : (Qsum (l ++ k) == Qsum l + Qsum k)%Q.
Proof.
  induction l as [|x l IH].
  - change (Qsum k == 0 + Qsum k)%Q. ring.
  - rewrite <- app_comm_cons, !Qsum_cons, IH. ring.
Qed.

(** What one operation adds to the counters. *)
Ltac quiet_stats :=
  simpl; repeat split; try lia; ring.

Lemma stats_step m o :
  let e := (o, step o m) in
  let s := stats m in
  let s' := stats (st (step o m)) in
  activities_started s'
  = activities_started s + Z.of_nat (length (created [e]))
  /\ activities_completed s'
     = activities_completed s + Z.of_nat (length (completed_durations [e]))
  /\ activities_failed s'
     = activities_failed s + Z.of_nat (length (failed_ends [e]))
  /\ (total_duration s' == total_duration s + Qsum (completed_durations [e]))%Q.
Proof.
  destruct o as [u now ty name md p|i s md now|p c|n u|cb|cb|sm|b];
    cbv zeta; cbn [step].
  - unfold start_activity, after_notify.
    destruct (enabled (config m)) eqn:He; cbn [negb]; [|quiet_stats].
    destruct (notify_subscribers _ _) as [cs o]. quiet_stats.
  - destruct (enabled (config m)) eqn:He;
      [|unfold end_activity; rewrite He; destruct s; quiet_stats].
    destruct (decide (i = ""%string)) as [->|Hi];
      [unfold end_activity; rewrite He; destruct s; quiet_stats|].
    destruct (activities m !! i) as [a|] eqn:Ha.
    + destruct (end_activity_live m i a s md now He Hi Ha)
        as (Hp & _ & _ & Hs & _).
      rewrite Hs. cbn [created completed_durations failed_ends omap list_omap].
      rewrite Hp. destruct s; quiet_stats.
    + unfold end_activity. rewrite Ha.
      destruct (_ || _); destruct s; quiet_stats.
  - unfold add_child_activity.
    destruct (negb _); [quiet_stats|].
    destruct (activities m !! p) as [a|]; [|quiet_stats].
    destruct (activities m !! c) as [b|]; quiet_stats.
  - unfold update_agent_metrics. destruct (_ || _); quiet_stats.
  - quiet_stats.
  - quiet_stats.
  - unfold collect_sample. destruct (notify _ _). quiet_stats.
  - quiet_stats.
Qed.

Lemma stats_exec cfg t :
  let l := log (init cfg) t in
  let s := stats (exec (init cfg) t) in
  activities_started s = Z.of_nat (length (created l))
  /\ activities_completed s = Z.of_nat (length (completed_durations l))
  /\ activities_failed s = Z.of_nat (length (failed_ends l))
  /\ (total_duration s == Qsum (completed_durations l))%Q.
Proof.
  induction t as [|o t IH] using rev_ind; [by repeat split|].
  cbv zeta in *. destruct IH as (H1 & H2 & H3 & H4).
  destruct (stats_step (exec (init cfg) t) o) as (S1 & S2 & S3 & S4).
  cbv zeta in S1, S2, S3, S4.
  rewrite log_app, exec_snoc.
  unfold created, completed_durations, failed_ends in *.
  rewrite !omap_app, !length_app, !Nat2Z.inj_add.
  rewrite S1, S2, S3, S4, H1, H2, H3, H4.
  repeat split; try done.
  match goal with |- (_ == Qsum (?a ++ ?b))%Q => rewrite (Qsum_app a b) end.
  reflexivity.
Qed.

(** X1. After any sequence of operations on a fresh monitor, the counters
    reported by [get_statistics] count what happened: started is the
    number of activities created, completed and failed are the numbers of
    ends with these statuses, and [average_duration] is the mean of the
    durations recorded by the completed ends (0 when there is none). *)
Theorem statistics_match_log cfg t :
  let l := log (init cfg) t in
  let s := get_statistics (exec (init cfg) t) in
  s_activities_started s = Z.of_nat (length (created l))
  /\ s_activities_completed s = Z.of_nat (length (completed_durations l))
  /\ s_activities_failed s = Z.of_nat (length (failed_ends l))
  /\ (s_total_duration s == Qsum (completed_durations l))%Q
  /\ (s_average_duration s == mean (completed_durations l))%Q.
Proof.
  destruct (stats_exec cfg t) as (H1 & H2 & H3 & H4). cbv zeta in *.
  unfold get_statistics. simpl.
  do 4 (split; [done|]).
  rewrite H2. destruct (completed_durations (log (init cfg) t)) as [|d ds].
  - reflexivity.
  - destruct (Z.gtb_spec (Z.of_nat (length (d :: ds))) 0) as [_|Hle];
      [|simpl in Hle; lia].
    unfold mean. by rewrite H4.
Qed.

(** ** The size of the live set *)

Lemma created_app l k : created (l ++ k) = created l ++ created k.
Proof. apply omap_app. Qed.

Lemma moved_app l k : moved (l ++ k) = moved l ++ moved k.
Proof. apply omap_app. Qed.

Lemma size_exec cfg t :
  NoDup (uuids t) ->
  Z.of_nat (size (activities (exec (init cfg) t)))
  = Z.of_nat (length (created (log (init cfg) t)))
    - Z.of_nat (length (moved (log (init cfg) t))).
Proof.
  induction t as [|o t IH] using rev_ind; intros Hnd; [done|].
  unfold uuids in Hnd. rewrite omap_app in Hnd.
  apply NoDup_app in Hnd as (Hnd & Hfresh & _).
  specialize (IH Hnd).
  destruct (inv_exec cfg t Hnd) as [Hlive _ _ Hcr _ _ _ _].
  rewrite log_app, exec_snoc, created_app, moved_app.
  change (log (exec (init cfg) t) [o])
    with [(o, step o (exec (init cfg) t))].
  rewrite !length_app, !Nat2Z.inj_add.
  remember (exec (init cfg) t) as m eqn:Hm.
  destruct (step_effect m o) as
    [Ha Hh Hp | u now ty name md p a Ho He Hid Hdur Ha Hh Hp
     | i s md now a Ho He Hi Hlk Ha Hh Hp | p c a Ho Hlk Ha Hh Hp].
  - destruct (quiet_entry o _ Hp) as [-> ->]. rewrite Ha. simpl. lia.
  - subst o. destruct (start_entry u now ty name md p _ a Hp) as [-> ->].
    rewrite Ha, map_size_insert_None; [simpl; lia|].
    destruct (activities m !! u) as [b|] eqn:Hb; [|done].
    destruct (Hlive u b Hb) as (_ & _ & HC). apply Hcr in HC.
    destruct (Hfresh u HC). apply list_elem_of_here.
  - subst o. destruct (end_entry i s md now _ _ Hp) as [-> ->].
    rewrite Ha.
    assert (size (activities m) = S (size (delete i (activities m)))) as Hs.
    { rewrite <- (insert_delete_id (activities m) i a Hlk) at 1.
      apply map_size_insert_None, lookup_delete_eq. }
    simpl. lia.
  - subst o. destruct (quiet_entry (AddChildActivity p c) _ Hp) as [-> ->].
    rewrite Ha, map_size_insert_Some by eauto. simpl. lia.
Qed.

(** X2. With identifiers that do not repeat, the number of active
    activities reported by [get_statistics] is the number started minus
    the number of ends that moved an activity to the history. *)
Theorem active_is_started_minus_ended cfg t :
  fresh_uuids t ->
  let s := get_statistics (exec (init cfg) t) in
  s_active_activities s
  = s_activities_started s
    - Z.of_nat (length (moved (log (init cfg) t)))
  /\ 0 <= s_active_activities s <= s_activities_started s.
Proof.
  intros [Hnd _]. cbv zeta. unfold get_statistics. simpl.
  pose proof (size_exec cfg t Hnd) as Hsize.
  destruct (stats_exec cfg t) as (Hst & _). cbv zeta in Hst. lia.
Qed.

Lemma active_is_started_minus_ended_witness :
  s_active_activities (get_statistics (exec (init default_config) two_rounds))
  = s_activities_started
      (get_statistics (exec (init default_config) two_rounds))
    - Z.of_nat (length (moved (log (init default_config) two_rounds)))
  /\ 0 <= s_active_activities
            (get_statistics (exec (init default_config) two_rounds))
       <= s_activities_started
            (get_statistics (exec (init default_config) two_rounds)).
Proof.
  apply (active_is_started_minus_ended default_config two_rounds).
  exact two_rounds_fresh.
Defined.

(** ** What an operation leaves alone *)

(** The cap and the two feature switches never change; the samples change
    only in [_collect_system_metrics], the subscribers only by a
    subscription, the agent metrics only in [update_agent_metrics]. *)
Lemma step_frame m o :
  let m' := st (step o m) in
  max_history (config m') = max_history (config m)
  /\ enable_agent_metrics (config m') = enable_agent_metrics (config m)
  /\ enable_resource_monitoring (config m')
     = enable_resource_monitoring (config m)
  /\ system_metrics m'
     = match o with
       | CollectSample s =>
           trim (max_history (config m)) (system_metrics m ++ [s])
       | _ => system_metrics m
       end
  /\ subscribers m'
     = match o with
       | SubscribeToActivities cb => subscribers m ++ [cb]
       | _ => subscribers m
       end
  /\ (match o with UpdateAgentMetrics _ _ => True
      | _ => agent_metrics m' = agent_metrics m end)
  /\ (match o with EnableMonitoring _ => True
      | _ => config m' = config m end).
Proof.
  destruct o as [u now ty name md p|i s md now|p c|n u|cb|cb|sm|b];
    cbv zeta; cbn [step].
  - unfold start_activity. destruct (negb _); [done|].
    by rewrite after_notify_st.
  - unfold end_activity. destruct (_ || _); [done|].
    destruct (activities m !! i); [|done]. by rewrite after_notify_st.
  - unfold add_child_activity. destruct (negb _); [done|].
    destruct (activities m !! p); [|done]. by destruct (activities m !! c).
  - unfold update_agent_metrics. by destruct (_ || _).
  - done.
  - done.
  - unfold collect_sample. by destruct (notify _ _).
  - done.
Qed.

(** X3. With a cap of at least one entry, the history and the list of
    samples never hold more than [max_history] entries, whatever sequence
    of operations ran since the monitor was created; the cap itself does
    not change. *)
Theorem history_bounded cfg t :
  0 < max_history cfg ->
  let m := exec (init cfg) t in
  max_history (config m) = max_history cfg
  /\ Z.of_nat (length (activities_history m)) <= max_history cfg
  /\ Z.of_nat (length (system_metrics m)) <= max_history cfg.
Proof.
  intros Hcap. cbv zeta.
  induction t as [|o t IH] using rev_ind; [simpl; lia|].
  destruct IH as (Hc & Hh & Hs). rewrite exec_snoc.
  remember (exec (init cfg) t) as m eqn:Hm.
  destruct (step_frame m o) as (Fc & _ & _ & Fs & _). cbv zeta in Fc, Fs.
  rewrite Fc, Fs, Hc. split; [done|]. split.
  - destruct (step_effect m o) as
      [_ Hh' _ | ? ? ? ? ? ? ? _ _ _ _ _ Hh' _
       | i s md now a _ _ _ _ _ Hh' _ | ? ? ? _ _ _ Hh' _];
      rewrite Hh'; try done.
    rewrite Hc, length_trim_pos by done. lia.
  - destruct o; try done. rewrite length_trim_pos by done. lia.
Qed.

Lemma history_bounded_witness :
  max_history (config (exec (init cap_three) five_rounds)) = max_history cap_three
  /\ Z.of_nat (length (activities_history (exec (init cap_three) five_rounds)))
     <= max_history cap_three
  /\ Z.of_nat (length (system_metrics (exec (init cap_three) five_rounds)))
     <= max_history cap_three.
Proof. apply (history_bounded cap_three five_rounds). reflexivity. Defined.

(** ** The samples of [_collect_system_metrics] *)

Lemma samples_after ss : forall m,
  0 < max_history (config m) ->
  Z.of_nat (length (system_metrics m)) <= max_history (config m) ->
  let m' := exec m (CollectSample <$> ss) in
  system_metrics m' = trim (max_history (config m)) (system_metrics m ++ ss)
  /\ config m' = config m /\ activities m' = activities m
  /\ activities_history m' = activities_history m
  /\ agent_metrics m' = agent_metrics m /\ stats m' = stats m.
Proof.
  induction ss as [|s ss IH]; intros m Hcap Hlen; cbv zeta.
  - simpl. by rewrite app_nil_r, trim_short.
  - rewrite fmap_cons, exec_cons.
    assert (st (step (CollectSample s) m)
            = mkMonitor (config m) (activities m) (activities_history m)
                (trim (max_history (config m)) (system_metrics m ++ [s]))
                (agent_metrics m) (subscribers m) (metrics_subscribers m)
                (stats m)) as ->.
    { simpl. unfold collect_sample. by destruct (notify _ _). }
    destruct (IH (mkMonitor (config m) (activities m) (activities_history m)
                (trim (max_history (config m)) (system_metrics m ++ [s]))
                (agent_metrics m) (subscribers m) (metrics_subscribers m)
                (stats m))) as (H1 & H2 & H3 & H4 & H5 & H6).
    + done.
    + simpl. rewrite length_trim_pos by done. lia.
    + simpl in *. rewrite H1, H2, H3, H4, H5, H6.
      rewrite trim_trim_app by done. by rewrite <- app_assoc.
Qed.

(** X4. Collected samples are kept first in, first out: once at least
    [max_history] samples were collected, the list holds exactly the
    newest [max_history] of them, in order.  The collection does not look
    at the [enabled] flag, and touches neither the activities, the
    history, the counters nor the agent metrics. *)
Theorem samples_keep_newest m ss :
  0 < max_history (config m) ->
  Z.of_nat (length (system_metrics m)) <= max_history (config m) ->
  max_history (config m) <= Z.of_nat (length ss) ->
  let m' := exec m (CollectSample <$> ss) in
  system_metrics m' = drop (length ss - Z.to_nat (max_history (config m))) ss
  /\ Z.of_nat (length (system_metrics m')) = max_history (config m)
  /\ activities m' = activities m
  /\ activities_history m' = activities_history m
  /\ agent_metrics m' = agent_metrics m /\ stats m' = stats m.
Proof.
  intros Hcap Hlen HN.
  destruct (samples_after ss m Hcap Hlen) as (H1 & _ & H3 & H4 & H5 & H6).
  cbv zeta in *. rewrite H1, H3, H4, H5, H6, trim_pos by done.
  rewrite length_app, drop_app_ge by lia.
  replace (length (system_metrics m) + length ss
           - Z.to_nat (max_history (config m))
           - length (system_metrics m))%nat
    with (length ss - Z.to_nat (max_history (config m)))%nat by lia.
  repeat split; try done. rewrite length_drop. lia.
Qed.

Definition sample_at (t : Z) : SystemMetrics :=
  mkSystemMetrics t (5 # 1) (100 # 1) (200 # 1) ∅ 3.

Definition disabled_cap_two : VisualizationConfig :=
  mkConfig false (1 # 10) 2 true true false.

Lemma samples_keep_newest_witness :
  system_metrics
    (exec (init disabled_cap_two)
       (CollectSample <$> [sample_at 1; sample_at 2; sample_at 3]))
  = [sample_at 2; sample_at 3].
Proof.
  apply (samples_keep_newest (init disabled_cap_two)
           [sample_at 1; sample_at 2; sample_at 3]); simpl; lia.
Defined.

(** ** Limits of the snapshot accessors *)

Lemma slice_from_suffix {A : Type} (i : Z) (l : list A) :
  slice_from i l `suffix_of` l.
Proof. unfold slice_from. destruct (i <? 0); apply suffix_drop. Qed.

(** X5. For a negative limit, [get_recent_activities] and
    [get_system_metrics] return the list without its [-limit] oldest
    entries: the newest [length - (-limit)] entries, which is the empty
    list exactly when the list holds no more than [-limit] entries. *)
Theorem negative_limit_drops_oldest limit m :
  limit < 0 ->
  (get_recent_activities limit m
   = drop (Z.to_nat (- limit)) (activities_history m)
   /\ get_system_metrics limit m
      = drop (Z.to_nat (- limit)) (system_metrics m))
  /\ (get_recent_activities limit m = []
      <-> Z.of_nat (length (activities_history m)) <= - limit)
  /\ (get_system_metrics limit m = []
      <-> Z.of_nat (length (system_metrics m)) <= - limit).
Proof.
  intros Hl.
  assert (get_recent_activities limit m
          = drop (Z.to_nat (- limit)) (activities_history m)
          /\ get_system_metrics limit m
             = drop (Z.to_nat (- limit)) (system_metrics m)) as [H1 H2].
  { unfold get_recent_activities, get_system_metrics, slice_from.
    by destruct (Z.ltb_spec (- limit) 0) as [?|_]; [lia|]. }
  split; [done|]. rewrite H1, H2. split.
  - rewrite <- length_zero_iff_nil, length_drop. lia.
  - rewrite <- length_zero_iff_nil, length_drop. lia.
Qed.

Lemma negative_limit_drops_oldest_witness :
  act_id <$> get_recent_activities (-1) two_ended = ["b"]%string.
Proof.
  rewrite (proj1 (proj1 (negative_limit_drops_oldest (-1) two_ended eq_refl))).
  reflexivity.
Defined.

Lemma recent_is_suffix limit m :
  get_recent_activities limit m `suffix_of` activities_history m.
Proof. apply slice_from_suffix. Qed.

Lemma large_limit_returns_all limit m :
  Z.of_nat (length (activities_history m)) <= limit ->
  get_recent_activities limit m = activities_history m.
Proof.
  intros Hl. unfold get_recent_activities.
  destruct (decide (limit = 0)) as [->|Hne]; [done|].
  rewrite slice_from_last by lia.
  replace (length (activities_history m) - Z.to_nat limit)%nat
    with 0%nat by lia. done.
Qed.

(** ** The two snapshots *)

Lemma elem_of_get_active m a :
  a ∈ get_active_activities m <-> exists i, activities m !! i = Some a.
Proof.
  unfold get_active_activities. rewrite list_elem_of_fmap. split.
  - intros ([i b] & -> & Hin). exists i. by apply elem_of_map_to_list.
  - intros [i Hi]. exists (i, a). split; [done|].
    by apply elem_of_map_to_list.
Qed.

(** The record that [start_activity] creates. *)
Definition new_activity (uuid : string) (now : Z) (ty : ActivityType)
  (name : string) (metadata : option (gmap string pyval))
  (parent_id : option string) : Activity :=
  mkActivity uuid ty name now STARTED
    (if truthy_dict metadata then default ∅ metadata else ∅)
    None parent_id [].

Lemma start_activity_enabled m u now ty name md p :
  enabled (config m) = true ->
  let r := start_activity u now ty name md p m in
  published r = Some (new_activity u now ty name md p)
  /\ activities (st r)
     = <[u := new_activity u now ty name md p]> (activities m)
  /\ activities_history (st r) = activities_history m
  /\ stats (st r)
     = mkStats (activities_started (stats m) + 1)
         (activities_completed (stats m)) (activities_failed (stats m))
         (total_duration (stats m))
  /\ config (st r) = config m
  /\ agent_metrics (st r) = agent_metrics m
  /\ subscribers (st r) = subscribers m
  /\ system_metrics (st r) = system_metrics m
  /\ calls r
     = (notify_subscribers m (new_activity u now ty name md p)).1.
Proof.
  intros He. cbv zeta. unfold start_activity. rewrite He. cbn [negb].
  rewrite after_notify_st, after_notify_published.
  unfold after_notify, notify_subscribers. simpl.
  by destruct (notify (subscribers m) _).
Qed.

(** Live records are in state started; history records carry a
    duration. *)
Lemma records_exec cfg t :
  let m := exec (init cfg) t in
  (forall i a, activities m !! i = Some a -> act_status a = STARTED)
  /\ (forall x, x ∈ activities_history m -> is_Some (act_duration x)).
Proof.
  cbv zeta. induction t as [|o t IH] using rev_ind.
  - split; [intros i a Hi;
             change ((∅ : gmap string Activity) !! i = Some a) in Hi;
             by rewrite lookup_empty in Hi|].
    intros x Hx. by apply elem_of_nil in Hx.
  - destruct IH as [Hst Hdu]. rewrite exec_snoc.
    remember (exec (init cfg) t) as m eqn:Hm.
    destruct (step_effect m o) as
      [Ha Hh Hp | u now ty name md p a Ho He Hid Hdur Ha Hh Hp
       | i s md now a Ho He Hi Hlk Ha Hh Hp | p c a Ho Hlk Ha Hh Hp];
      rewrite Ha, Hh.
    + done.
    + split; [|done]. subst o.
      destruct (start_activity_enabled m u now ty name md p He)
        as (_ & Ha' & _).
      cbn [step] in Ha. rewrite Ha' in Ha.
      assert (a = new_activity u now ty name md p) as ->.
      { apply (f_equal (fun x => x !! u)) in Ha.
        rewrite !lookup_insert_eq in Ha. congruence. }
      intros j b. destruct (decide (u = j)) as [<-|Hne].
      * rewrite lookup_insert_eq. by intros [= <-].
      * rewrite lookup_insert_ne by done. apply Hst.
    + split.
      * intros j b [_ Hb]%lookup_delete_Some. by eapply Hst.
      * intros x [Hx| ->%list_elem_of_singleton]%elem_of_trim%elem_of_app;
          [by apply Hdu|]. simpl. eauto.
    + split; [|done].
      intros j b. destruct (decide (p = j)) as [<-|Hne].
      * rewrite lookup_insert_eq. intros [= <-]. simpl. by eapply Hst.
      * rewrite lookup_insert_ne by done. apply Hst.
Qed.

(** X6. With identifiers that do not repeat, the two snapshots never
    overlap: a record returned by [get_active_activities] is in state
    started and has no duration, a record returned by
    [get_recent_activities] (for any limit) has a duration, and the two
    never carry the same identifier. *)
Theorem snapshots_disjoint cfg t limit a b :
  fresh_uuids t ->
  let m := exec (init cfg) t in
  a ∈ get_active_activities m ->
  b ∈ get_recent_activities limit m ->
  act_id a <> act_id b
  /\ act_status a = STARTED /\ act_duration a = None
  /\ is_Some (act_duration b).
Proof.
  intros [Hnd _] m [i Hi]%elem_of_get_active Hb.
  assert (b ∈ activities_history m) as Hb'.
  { destruct (recent_is_suffix limit m) as [k ->].
    apply elem_of_app. by right. }
  destruct (inv_exec cfg t Hnd) as [Hlive Hhist Hmoved _ _ _ _ _].
  destruct (records_exec cfg t) as [Hst Hdu].
  fold m in Hlive, Hhist, Hmoved, Hst, Hdu.
  destruct (Hlive i a Hi) as (Hid & Hdur & _).
  repeat split; eauto.
  intros Heq. apply Hhist in Hb'. rewrite <- Heq, Hid in Hb'.
  apply Hmoved in Hb'. congruence.
Qed.

Definition p_ended : Activity :=
  finalize (mkActivity "p" AGENT_EXECUTION "run" 0 STARTED ∅ None None [])
    COMPLETED None 9.

Definition q_child : Activity :=
  mkActivity "q" TOOL_EXECUTION "fetch" 1 STARTED ∅ None (Some "p"%string) [].

Definition parent_gone_trace : list op :=
  [StartActivity "p" 0 AGENT_EXECUTION "run" None None;
   StartActivity "q" 1 TOOL_EXECUTION "fetch" None (Some "p"%string);
   EndActivity "p" COMPLETED None 9].

Lemma snapshots_disjoint_witness :
  act_id q_child <> act_id p_ended
  /\ act_status q_child = STARTED /\ act_duration q_child = None
  /\ is_Some (act_duration p_ended).
Proof.
  apply (snapshots_disjoint default_config parent_gone_trace 50
           q_child p_ended).
  - split; apply (bool_decide_unpack _); by vm_compute.
  - apply elem_of_get_active. exists "q"%string. by vm_compute.
  - vm_compute. apply list_elem_of_here.
Defined.

(** ** The counters of an agent *)

Definition tally (f : metrics_update -> Z) (us : list metrics_update) : Z :=
  foldr (fun u acc => f u + acc) 0 us.

Definition completed_key (u : metrics_update) : Z :=
  if mu_task_completed u then 1 else 0.
Definition failed_key (u : metrics_update) : Z :=
  if mu_task_failed u then 1 else 0.
Definition tokens_of (u : metrics_update) : Z := default 0 (mu_tokens_used u).
Definition uses_tool (t : string) (u : metrics_update) : Z :=
  if decide (mu_tool_used u = Some t) then 1 else 0.

Lemma count_tool_lookup tool (tu : gmap string Z) t :
  default 0 (count_tool tool tu !! t)
  = default 0 (tu !! t) + (if decide (tool = Some t) then 1 else 0).
Proof.
  destruct tool as [t'|]; unfold count_tool.
  - destruct (decide (Some t' = Some t)) as [Heq|Hne].
    + injection Heq as ->. rewrite lookup_insert_eq. simpl. lia.
    + rewrite lookup_insert_ne by congruence. lia.
  - destruct (decide (None = Some t)); [done|]. lia.
Qed.

Lemma fold_updates_counts us : forall am,
  let am' := fold_updates am us in
  agent_name am' = agent_name am
  /\ tasks_completed am' = tasks_completed am + tally completed_key us
  /\ tasks_failed am' = tasks_failed am + tally failed_key us
  /\ token_usage am' = token_usage am + tally tokens_of us
  /\ forall t,
       default 0 (tool_usage am' !! t)
       = default 0 (tool_usage am !! t) + tally (uses_tool t) us.
Proof.
  induction us as [|u us IH]; intros am; cbv zeta.
  - simpl. repeat split; intros; lia.
  - change (fold_updates am (u :: us))
      with (fold_updates (apply_update u am) us).
    destruct (IH (apply_update u am)) as (H1 & H2 & H3 & H4 & H5).
    cbv zeta in *. rewrite H1, H2, H3, H4.
    unfold tally. simpl. fold (tally completed_key us).
    fold (tally failed_key us). fold (tally tokens_of us).
    unfold bump, completed_key, failed_key, tokens_of.
    split; [done|].
    split; [destruct (mu_task_completed u); lia|].
    split; [destruct (mu_task_failed u); lia|].
    split; [lia|].
    intros t. rewrite H5. fold (tally (uses_tool t) us).
    change (tool_usage (apply_update u am))
      with (count_tool (mu_tool_used u) (tool_usage am)).
    rewrite count_tool_lookup. unfold uses_tool. lia.
Qed.

(** X7. For an agent first seen in a sequence of [update_agent_metrics]
    calls (metrics enabled), the entry created for it counts exactly what
    the calls carried: one completed (failed) task per call holding that
    key, the sum of the token counts, and per tool the number of calls
    naming it; calls for other agents do not count. *)
Theorem agent_counters m name cs :
  enabled (config m) = true -> enable_agent_metrics (config m) = true ->
  agent_metrics m !! name = None ->
  own name cs <> [] ->
  exists am,
    agent_metrics (exec m (update_op <$> cs)) !! name = Some am
    /\ agent_name am = name
    /\ tasks_completed am = tally completed_key (own name cs)
    /\ tasks_failed am = tally failed_key (own name cs)
    /\ token_usage am = tally tokens_of (own name cs)
    /\ forall t,
         default 0 (tool_usage am !! t) = tally (uses_tool t) (own name cs).
Proof.
  intros He Ha Hnew Hown.
  rewrite agent_after_updates, Hnew by done.
  destruct (own name cs) as [|u us]; [done|].
  rewrite entity_after_cons. eexists. split; [done|].
  destruct (fold_updates_counts (u :: us) (new_agent_metrics name))
    as (H1 & H2 & H3 & H4 & H5).
  cbv zeta in *. simpl default. rewrite H1, H2, H3, H4.
  split; [done|]. do 3 (split; [simpl; lia|]).
  intros t. rewrite H5. simpl. rewrite lookup_empty. simpl. lia.
Qed.

Definition tool_call (tool : string) : metrics_update :=
  mkUpdate false false None (Some tool) None.

Definition mixed_updates : list (string * metrics_update) :=
  [("coder"%string, mkUpdate true false (Some 3%Q) None (Some 40));
   ("coder"%string, tool_call "grep");
   ("tester"%string, tool_call "grep");
   ("coder"%string, mkUpdate false true (Some 2%Q) (Some "grep"%string)
                      (Some 2))].

Lemma agent_counters_witness :
  exists am,
    agent_metrics (exec (init default_config) (update_op <$> mixed_updates))
      !! "coder"%string = Some am
    /\ agent_name am = "coder"%string
    /\ tasks_completed am = 1 /\ tasks_failed am = 1
    /\ token_usage am = 42
    /\ default 0 (tool_usage am !! "grep"%string) = 2.
Proof.
  destruct (agent_counters (init default_config) "coder" mixed_updates)
    as (am & H1 & H2 & H3 & H4 & H5 & H6); try reflexivity.
  - discriminate.
  - exists am. rewrite H3, H4, H5, H6. by repeat split.
Defined.

(** ** Entries of the agent dictionary *)

Definition updated_names (t : list op) : list string :=
  omap (fun o => match o with
                 | UpdateAgentMetrics n _ => Some n
                 | _ => None
                 end) t.

(** X8. Over any sequence of operations the agent dictionary only grows:
    no entry is ever removed, and an entry appears only for a name that
    [update_agent_metrics] was called with. *)
Theorem agent_entries_grow m t :
  dom (agent_metrics m) ⊆ dom (get_agent_metrics (exec m t))
  /\ dom (get_agent_metrics (exec m t))
     ⊆ dom (agent_metrics m) ∪ list_to_set (updated_names t).
Proof.
  unfold get_agent_metrics. revert m.
  induction t as [|o t IH]; intros m;
    [split; [done|apply union_subseteq_l]|].
  rewrite exec_cons. destruct (IH (st (step o m))) as [IH1 IH2].
  assert (dom (agent_metrics m) ⊆ dom (agent_metrics (st (step o m)))
          /\ dom (agent_metrics (st (step o m)))
             ⊆ dom (agent_metrics m) ∪ list_to_set (updated_names [o]))
    as [H1 H2].
  { destruct (step_frame m o) as (_ & _ & _ & _ & _ & Hf & _).
    destruct o as [| | |n u| | | |]; cbv zeta in Hf;
      try (rewrite Hf; split; [done|apply union_subseteq_l]).
    cbn [step]. unfold update_agent_metrics.
    destruct (_ || _); simpl; [split; [done|apply union_subseteq_l]|].
    rewrite dom_insert_L. split; [apply union_subseteq_r|].
    rewrite union_empty_r_L. by rewrite (comm_L union). }
  change (o :: t) with ([o] ++ t). unfold updated_names in *.
  rewrite omap_app, list_to_set_app_L. split; [by etrans|].
  etrans; [exact IH2|]. rewrite (assoc_L (∪)). by apply union_mono_r.
Qed.

(** X9. With the [enabled] flag or the agent-metrics switch off, any
    sequence of [update_agent_metrics] calls leaves the monitor as it
    was; in particular no entry is created. *)
Theorem metrics_off_is_noop m cs :
  enabled (config m) = false \/ enable_agent_metrics (config m) = false ->
  exec m (update_op <$> cs) = m.
Proof.
  intros Hoff. induction cs as [|[n u] cs IH]; [done|].
  rewrite fmap_cons, exec_cons.
  replace (st (step (update_op (n, u)) m)) with m; [done|].
  simpl. unfold update_agent_metrics.
  destruct Hoff as [-> | ->]; [done|]. by rewrite orb_true_r.
Qed.

Definition agent_metrics_off : VisualizationConfig :=
  mkConfig true (1 # 10) 1000 true false false.

Lemma metrics_off_is_noop_witness :
  exec (init agent_metrics_off) (update_op <$> mixed_updates)
  = init agent_metrics_off.
Proof.
  apply (metrics_off_is_noop (init agent_metrics_off) mixed_updates).
  right. reflexivity.
Defined.

(** ** An end reported while the monitor is disabled *)

(** X10. [end_activity] does nothing while the monitor is disabled, and
    nothing replays it later: when [enable_monitoring] switches the
    monitor off, the end of a live activity arrives, and the monitor is
    switched on again, the activity is still live, the history and the
    counters are as before, and no subscriber was called. *)
Theorem end_while_disabled_is_lost m i a s md now :
  activities m !! i = Some a ->
  let m1 := st (enable_monitoring false m) in
  let r := end_activity i s md now m1 in
  let m3 := st (enable_monitoring true (st r)) in
  calls r = [] /\ published r = None
  /\ activities m3 !! i = Some a
  /\ activities m3 = activities m
  /\ activities_history m3 = activities_history m
  /\ stats m3 = stats m.
Proof. intros Ha. cbv zeta. unfold end_activity. simpl. by rewrite Ha. Qed.

Lemma end_while_disabled_is_lost_witness :
  activities
    (st (enable_monitoring true
           (st (end_activity "q" COMPLETED None 8
                  (st (enable_monitoring false one_live))))))
    !! "q"%string = Some q_started.
Proof.
  apply (end_while_disabled_is_lost one_live "q" q_started COMPLETED None 8).
  vm_compute. reflexivity.
Defined.

(** ** [start_monitoring] and [stop_monitoring]

    The monitor together with the fields that steer the collection task:
    [_is_monitoring], [_monitoring_task], and the tasks created on the
    event loop so far ([true] once [cancel()] was called on the task).
    [asyncio.create_task] raises [RuntimeError] when no event loop is
    running; whether one is running is an input of [start_monitoring]. *)
Record Runner := mkRunner {
  monitor : ActivityMonitor;
  is_monitoring : bool;
  monitoring_task : option nat;
  tasks : list bool;
  executor_shutdown : bool
}.

(** The fields after [ActivityMonitor.__init__]. *)
Definition init_runner (cfg : VisualizationConfig) : Runner :=
  mkRunner (init cfg) false None [] false.

Definition start_monitoring (loop_running : bool) (r : Runner)
  : Runner * outcome unit :=
  if is_monitoring r then (r, Returned tt)
  else if enable_resource_monitoring (config (monitor r)) then
    if loop_running then
      (mkRunner (monitor r) true (Some (length (tasks r)))
         (tasks r ++ [false]) (executor_shutdown r),
       Returned tt)
    else
      (mkRunner (monitor r) true (monitoring_task r) (tasks r)
         (executor_shutdown r),
       Raised (Exception "RuntimeError: no running event loop"))
  else
    (mkRunner (monitor r) true (monitoring_task r) (tasks r)
       (executor_shutdown r),
     Returned tt).

Definition stop_monitoring (r : Runner) : Runner * outcome unit :=
  (mkRunner (monitor r) false (monitoring_task r)
     match monitoring_task r with
     | Some k => <[k := true]> (tasks r)
     | None => tasks r
     end
     true,
   Returned tt).

(** integration.py, [enable_monitoring] in full: the assignment to
    [config.enabled], then the start or the stop. *)
Definition enable_monitoring_full (enable loop_running : bool) (r : Runner)
  : Runner * outcome unit :=
  let r' :=
    mkRunner (st (enable_monitoring enable (monitor r))) (is_monitoring r)
      (monitoring_task r) (tasks r) (executor_shutdown r) in
  if enable then start_monitoring loop_running r' else stop_monitoring r'.

Inductive lifecycle_op :=
| StartMonitoring (loop_running : bool)
| StopMonitoring
| EnableMonitoringFull (enable loop_running : bool).

Definition lifecycle_step (r : Runner) (o : lifecycle_op) : Runner :=
  match o with
  | StartMonitoring lr => (start_monitoring lr r).1
  | StopMonitoring => (stop_monitoring r).1
  | EnableMonitoringFull e lr => (enable_monitoring_full e lr r).1
  end.

Definition lifecycle (r : Runner) (os : list lifecycle_op) : Runner :=
  foldl lifecycle_step r os.

(** At most one task is not cancelled; it is the one the monitor holds,
    and the monitor is then marked as monitoring. *)
Record one_collector (r : Runner) : Prop := {
  oc_task : forall k, monitoring_task r = Some k -> (k < length (tasks r))%nat;
  oc_running : forall k,
    tasks r !! k = Some false -> monitoring_task r = Some k;
  oc_flag : forall k,
    tasks r !! k = Some false -> is_monitoring r = true
}.

Lemma one_collector_step r o :
  one_collector r -> one_collector (lifecycle_step r o).
Proof.
  intros [Ht Hr Hf].
  assert (one_collector (stop_monitoring r).1) as Hstop.
  { split; simpl.
    - intros k Hk. destruct (monitoring_task r); [|done].
      rewrite length_insert. by apply Ht.
    - intros k Hk. destruct (monitoring_task r) as [j|] eqn:Hj; [|by apply Hr].
      destruct (decide (j = k)) as [->|Hne].
      + rewrite list_lookup_insert_eq in Hk by (by apply Ht). done.
      + rewrite list_lookup_insert_ne in Hk by done.
        apply Hr in Hk. congruence.
    - intros k Hk. destruct (monitoring_task r) as [j|] eqn:Hj.
      + destruct (decide (j = k)) as [->|Hne].
        * rewrite list_lookup_insert_eq in Hk by (by apply Ht). done.
        * rewrite list_lookup_insert_ne in Hk by done.
          apply Hr in Hk. congruence.
      + apply Hr in Hk. congruence. }
  assert (forall lr, one_collector (start_monitoring lr r).1) as Hstart.
  { intros lr. unfold start_monitoring.
    destruct (is_monitoring r) eqn:Hm; [by split|].
    assert (forall k, tasks r !! k <> Some false) as Hnone.
    { intros k Hk. apply Hf in Hk. congruence. }
    destruct (enable_resource_monitoring _); [destruct lr|]; split; simpl;
      try done; try (intros k Hk; by destruct (Hnone k)).
    - intros k [= <-]. rewrite length_app. simpl. lia.
    - intros k Hk. apply lookup_app_Some in Hk as [Hk|[Hle Hk]];
        [by destruct (Hnone k)|].
      apply list_lookup_singleton_Some in Hk as [Hk _].
      f_equal. lia. }
  destruct o as [lr| |e lr]; simpl; [done|done|].
  unfold enable_monitoring_full. destruct e.
  - unfold start_monitoring. simpl.
    destruct (Hstart lr) as [A B C]. unfold start_monitoring in A, B, C.
    destruct (is_monitoring r) eqn:Hm; [by split|].
    destruct (enable_resource_monitoring _); [destruct lr|]; by split.
  - destruct Hstop as [A B C]. by split.
Qed.

Lemma one_collector_exec cfg os :
  one_collector (lifecycle (init_runner cfg) os).
Proof.
  induction os as [|o os IH] using rev_ind.
  - split; simpl; intros k Hk; by try rewrite lookup_nil in Hk.
  - unfold lifecycle. rewrite foldl_snoc. by apply one_collector_step.
Qed.

(** X11. Whatever sequence of [start_monitoring], [stop_monitoring] and
    [enable_monitoring] calls is made, inside or outside a running event
    loop, at most one collection task is left uncancelled: it is the task
    the monitor holds, and [_is_monitoring] is then set. *)
Theorem at_most_one_collector cfg os :
  let r := lifecycle (init_runner cfg) os in
  (forall j k,
     tasks r !! j = Some false -> tasks r !! k = Some false -> j = k)
  /\ (forall k,
        tasks r !! k = Some false ->
        monitoring_task r = Some k /\ is_monitoring r = true).
Proof.
  cbv zeta. destruct (one_collector_exec cfg os) as [_ Hr Hf]. split.
  - intros j k Hj Hk. apply Hr in Hj, Hk. congruence.
  - intros k Hk. split; [by apply Hr|by eapply Hf].
Qed.

(** X12. [start_monitoring] sets [_is_monitoring] before it creates the
    task.  Called outside a running event loop (resource monitoring on),
    it raises [RuntimeError] and leaves the flag set without a task; every
    later [start_monitoring], also inside a running loop, then returns at
    once and creates no task.  Only [stop_monitoring] clears the flag. *)
Theorem start_outside_loop_sticks r :
  is_monitoring r = false ->
  enable_resource_monitoring (config (monitor r)) = true ->
  let r1 := (start_monitoring false r).1 in
  (start_monitoring false r).2
  = Raised (Exception "RuntimeError: no running event loop")
  /\ is_monitoring r1 = true /\ tasks r1 = tasks r
  /\ monitoring_task r1 = monitoring_task r
  /\ (forall loop_running,
        start_monitoring loop_running r1 = (r1, Returned tt))
  /\ is_monitoring (stop_monitoring r1).1 = false.
Proof.
  intros Hm Hr. cbv zeta. unfold start_monitoring. rewrite Hm, Hr. simpl.
  by repeat split.
Qed.

Lemma start_outside_loop_sticks_witness :
  (start_monitoring false (init_runner default_config)).2
  = Raised (Exception "RuntimeError: no running event loop")
  /\ tasks (start_monitoring true
              (start_monitoring false (init_runner default_config)).1).1
     = [].
Proof.
  destruct (start_outside_loop_sticks (init_runner default_config))
    as (H1 & _ & _ & _ & H5 & _); [reflexivity..|].
  split; [exact H1|]. by rewrite (H5 true).
Defined.

(** * hooks.py: the context managers

    The block under a [with] statement may use the monitor in any way; it
    is a function from the state in which it starts to the state in which
    it ends, the subscriber calls it caused, and its outcome.  A context
    manager turns a block into a block.  [time.time()] is read as a
    rational; a string counts bytes where Python counts code points. *)

Record block_result := mkBlock {
  b_st : ActivityMonitor;
  b_calls : list (nat * bus_event);
  b_out : outcome unit
}.

Definition block : Type := ActivityMonitor -> block_result.

(** [status] and [error] after the [try] / [except Exception] of a hook:
    only an [Exception] marks the activity as failed. *)
Definition hook_status (out : outcome unit) : ActivityStatus :=
  match out with
  | Raised (Exception _) => FAILED
  | _ => COMPLETED
  end.

Definition hook_error (out : outcome unit) : option string :=
  match out with
  | Raised (Exception msg) => Some msg
  | _ => None
  end.

(** [error] as a metadata value: [None] or the text. *)
Definition error_value (error : option string) : pyval :=
  match error with
  | None => PNone
  | Some msg => PStr msg
  end.

(** The truth value of [error]: [None] and the empty text are falsy. *)
Definition truthy_error (error : option string) : bool :=
  match error with
  | None => false
  | Some msg => negb (String.eqb msg "")
  end.

(** The shape shared by the context managers: [start_activity], the
    block, then the [finally] part [finish], which receives the identifier
    returned by the start and the outcome of the block.  An exception that
    leaves [start_activity] ends the hook before the block; one that
    leaves [finish] replaces the outcome of the block. *)
Definition scoped (start : ActivityMonitor -> result)
  (finish : string -> outcome unit -> ActivityMonitor -> result)
  (body : block) : block := fun m =>
  let r0 := start m in
  match ret r0 with
  | Raised e => mkBlock (st r0) (calls r0) (Raised e)
  | Returned rid =>
      let b := body (st r0) in
      let r2 := finish (default ""%string rid) (b_out b) (b_st b) in
      mkBlock (st r2) (calls r0 ++ b_calls b ++ calls r2)
        match ret r2 with
        | Raised e => Raised e
        | Returned _ => b_out b
        end
  end.

(** The dictionary sent to [update_agent_metrics] by
    [monitor_agent_execution]. *)
Definition agent_update (status : ActivityStatus) (duration : Q)
  : metrics_update :=
  match status with
  | COMPLETED => mkUpdate true false (Some duration) None None
  | _ => mkUpdate false true (Some duration) None None
  end.

Definition agent_end_metadata (duration : Q) (error : option string)
  : gmap string pyval :=
  if truthy_error error then
    {[ "duration"%string := PFloat duration;
       "error"%string := error_value error ]}
  else {[ "duration"%string := PFloat duration ]}.

Definition monitor_agent_execution (agent_name task : string)
  (uuid : string) (now0 : Z) (t0 t1 : Q) (now1 : Z) : block -> block :=
  scoped
    (start_activity uuid now0 AGENT_EXECUTION
       (agent_name +:+ ": " +:+ String.substring 0 50 task)
       (Some {[ "agent"%string := PStr agent_name;
                "task"%string := PStr task ]})
       None)
    (fun activity_id out m =>
       let status := hook_status out in
       let duration := (t1 - t0)%Q in
       let r1 := update_agent_metrics agent_name
                   (agent_update status duration) m in
       end_activity activity_id status
         (Some (agent_end_metadata duration (hook_error out))) now1 (st r1)).

Definition plain_end_metadata (duration : Q) (error : option string)
  : gmap string pyval :=
  {[ "duration"%string := PFloat duration;
     "error"%string := error_value error ]}.

Definition monitor_file_operation (operation file_path : string)
  (uuid : string) (now0 : Z) (t0 t1 : Q) (now1 : Z) : block -> block :=
  scoped
    (start_activity uuid now0 FILE_OPERATION
       ("File " +:+ operation +:+ ": " +:+ file_path)
       (Some {[ "operation"%string := PStr operation;
                "file_path"%string := PStr file_path ]})
       None)
    (fun activity_id out m =>
       end_activity activity_id (hook_status out)
         (Some (plain_end_metadata (t1 - t0)%Q (hook_error out))) now1 m).

Definition monitor_command_execution (command : string)
  (uuid : string) (now0 : Z) (t0 t1 : Q) (now1 : Z) : block -> block :=
  scoped
    (start_activity uuid now0 COMMAND_EXECUTION
       ("Command: " +:+ String.substring 0 50 command)
       (Some {[ "command"%string := PStr command ]})
       None)
    (fun activity_id out m =>
       end_activity activity_id (hook_status out)
         (Some (plain_end_metadata (t1 - t0)%Q (hook_error out))) now1 m).

(** [monitor_llm_call]: [tokens_used] is set to 0 and never changed, so
    the guarded [update_agent_metrics] call is modelled with its guard. *)
Definition monitor_llm_call (model : string) (prompt_length : Z)
  (uuid : string) (now0 : Z) (t0 t1 : Q) (now1 : Z) : block -> block :=
  scoped
    (start_activity uuid now0 LLM_CALL ("LLM: " +:+ model)
       (Some {[ "model"%string := PStr model;
                "prompt_length"%string := PInt prompt_length ]})
       None)
    (fun activity_id out m =>
       let tokens_used := 0 in
       let m1 :=
         if tokens_used >? 0 then
           st (update_agent_metrics "unknown"
                 (mkUpdate false false None None (Some tokens_used)) m)
         else m in
       end_activity activity_id (hook_status out)
         (Some (<[ "duration"%string := PFloat (t1 - t0)%Q ]>
                  (<[ "error"%string := error_value (hook_error out) ]>
                     (<[ "tokens_used"%string := PInt tokens_used ]>
                        {[ "response_time"%string := PFloat (t1 - t0)%Q ]}))))
         now1 m1).

(** [record_network_request]: the start and the end, one after the
    other. *)
Definition record_network_request (url method : string)
  (status_code : option Z) (uuid : string) (now0 now1 : Z) : block :=
  scoped
    (start_activity uuid now0 NETWORK_REQUEST (method +:+ " " +:+ url)
       (Some {[ "url"%string := PStr url; "method"%string := PStr method ]})
       None)
    (fun activity_id _ m =>
       end_activity activity_id COMPLETED
         (Some {[ "status_code"%string :=
                    match status_code with
                    | Some c => PInt c
                    | None => PNone
                    end ]})
         now1 m)
    (fun m => mkBlock m [] (Returned tt)).

(** Subscribers that raise nothing but [Exception]s, whatever the event. *)
Definition quiet_subscribers (m : ActivityMonitor) : Prop :=
  forall a, Forall (caught a) (subscribers m).

Definition deliveries (m : ActivityMonitor) (a : Activity)
  : list (nat * bus_event) :=
  map (fun s => (cb_tag s, ActivityUpdate a)) (subscribers m).

Lemma after_notify_caught m a r :
  Forall (caught a) (subscribers m) ->
  after_notify m a r = mkResult m (Some a) (deliveries m a) (Returned r).
Proof.
  intros Hc. unfold after_notify, notify_subscribers, deliveries.
  rewrite (notify_all _ _ Hc). by rewrite map_map.
Qed.

Lemma start_activity_caught m u now ty name md p :
  enabled (config m) = true -> quiet_subscribers m ->
  let a := new_activity u now ty name md p in
  start_activity u now ty name md p m
  = mkResult
      (mkMonitor (config m) (<[u := a]> (activities m))
         (activities_history m) (system_metrics m) (agent_metrics m)
         (subscribers m) (metrics_subscribers m)
         (mkStats (activities_started (stats m) + 1)
            (activities_completed (stats m)) (activities_failed (stats m))
            (total_duration (stats m))))
      (Some a) (deliveries m a) (Returned (Some u)).
Proof.
  intros He Hq. cbv zeta. unfold start_activity. rewrite He. cbn [negb].
  by rewrite after_notify_caught by apply Hq.
Qed.

Lemma end_activity_caught m i a s md now :
  enabled (config m) = true -> i <> ""%string ->
  activities m !! i = Some a -> quiet_subscribers m ->
  let a' := finalize a s md now in
  end_activity i s md now m
  = mkResult
      (mkMonitor (config m) (delete i (activities m))
         (trim (max_history (config m)) (activities_history m ++ [a']))
         (system_metrics m) (agent_metrics m)
         (subscribers m) (metrics_subscribers m)
         (update_stats (stats m) s (total_seconds (now - act_timestamp a))))
      (Some a') (deliveries m a') (Returned None).
Proof.
  intros He Hi Ha Hq. cbv zeta. unfold end_activity. rewrite He, Ha.
  apply String.eqb_neq in Hi. rewrite Hi. cbn [negb orb].
  by rewrite after_notify_caught by apply Hq.
Qed.

Lemma scoped_returned start finish body m rid :
  ret (start m) = Returned rid ->
  scoped start finish body m
  = (let b := body (st (start m)) in
     let r2 := finish (default ""%string rid) (b_out b) (b_st b) in
     mkBlock (st r2) (calls (start m) ++ b_calls b ++ calls r2)
       match ret r2 with
       | Raised e => Raised e
       | Returned _ => b_out b
       end).
Proof. unfold scoped. by intros ->. Qed.

Lemma truthy_agent_end_metadata d e :
  truthy_dict (Some (agent_end_metadata d e)) = true.
Proof. unfold agent_end_metadata. by destruct (truthy_error e). Qed.

(** What [monitor_agent_execution] does around a block, when the monitor
    is enabled before and after the block and the activity it started is
    still live after the block. *)
Lemma agent_hook_effect m agent task uuid now0 t0 t1 now1 body a :
  enabled (config m) = true -> uuid <> ""%string -> quiet_subscribers m ->
  let m0 := st (start_activity uuid now0 AGENT_EXECUTION
                  (agent +:+ ": " +:+ String.substring 0 50 task)
                  (Some {[ "agent"%string := PStr agent;
                           "task"%string := PStr task ]}) None m) in
  let b := body m0 in
  enabled (config (b_st b)) = true ->
  enable_agent_metrics (config (b_st b)) = true ->
  activities (b_st b) !! uuid = Some a ->
  quiet_subscribers (b_st b) ->
  let h := monitor_agent_execution agent task uuid now0 t0 t1 now1 body m in
  let status := hook_status (b_out b) in
  let record :=
    finalize a status
      (Some (agent_end_metadata (t1 - t0)%Q (hook_error (b_out b)))) now1 in
  b_out h = b_out b
  /\ config (b_st h) = config (b_st b)
  /\ subscribers (b_st h) = subscribers (b_st b)
  /\ activities (b_st h) = delete uuid (activities (b_st b))
  /\ activities_history (b_st h)
     = trim (max_history (config (b_st b)))
         (activities_history (b_st b) ++ [record])
  /\ agent_metrics (b_st h)
     = <[agent := apply_update (agent_update status (t1 - t0)%Q)
                    (default (new_agent_metrics agent)
                       (agent_metrics (b_st b) !! agent))]>
         (agent_metrics (b_st b)).
Proof.
  intros He Hu Hq. cbv zeta.
  pose proof (start_activity_caught m uuid now0 AGENT_EXECUTION
                (agent +:+ ": " +:+ String.substring 0 50 task)
                (Some {[ "agent"%string := PStr agent;
                         "task"%string := PStr task ]}) None He Hq) as Hs.
  cbv zeta in Hs. apply (f_equal ret) in Hs. cbn [ret] in Hs.
  unfold monitor_agent_execution.
  rewrite (scoped_returned _ _ _ _ _ Hs). cbv zeta. cbn [default].
  remember (body (st (start_activity uuid now0 AGENT_EXECUTION
                        (agent +:+ ": " +:+ String.substring 0 50 task)
                        (Some {[ "agent"%string := PStr agent;
                                 "task"%string := PStr task ]}) None m)))
    as b eqn:Hb.
  intros Hbe Hba Hlive Hbq.
  remember (st (update_agent_metrics agent
                  (agent_update (hook_status (b_out b)) (t1 - t0)%Q)
                  (b_st b))) as m1 eqn:Hm1.
  unfold update_agent_metrics in Hm1. rewrite Hbe, Hba in Hm1.
  cbn [negb orb unchanged st] in Hm1.
  rewrite (end_activity_caught m1 uuid a _ _ now1); subst m1; try done.
Qed.

Lemma agent_end_metadata_lookup d e (old : gmap string pyval) :
  (agent_end_metadata d e ∪ old) !! "duration"%string = Some (PFloat d)
  /\ (agent_end_metadata d e ∪ old) !! "error"%string
     = (if truthy_error e then Some (error_value e)
        else old !! "error"%string).
Proof.
  unfold agent_end_metadata. destruct (truthy_error e); split.
  - by apply lookup_union_Some_l.
  - by apply lookup_union_Some_l.
  - by apply lookup_union_Some_l.
  - by apply lookup_union_r.
Qed.

Lemma finalize_metadata a s d now :
  truthy_dict (Some d) = true ->
  act_metadata (finalize a s (Some d) now) = d ∪ act_metadata a.
Proof. intros H. unfold finalize. cbn [act_metadata]. by rewrite H. Qed.

(** X13. [monitor_agent_execution] around a block, under these
    conditions: the monitor is enabled when the hook starts and the
    identifier is not empty; after the block the monitor is still enabled,
    [enable_agent_metrics] is on, the activity the hook started is still
    live, and [max_history] is at least 0; and the subscribers registered
    before and after the block raise nothing but [Exception]s.  Then the
    hook passes the outcome of the block on; the activity leaves the live
    set and its record is the last entry of the history, failed exactly
    when the block raised an [Exception] and completed otherwise; the
    duration of the record is the time from the timestamp of the activity
    to the clock reading of [end_activity]; its metadata hold the time
    measured by the hook under "duration" and the text of the exception
    under "error" (when that text is empty or there is no exception, the
    entry "error" is as the activity had it); and the agent is credited
    with exactly one task. *)
Theorem agent_hook_outcome m agent task uuid now0 t0 t1 now1 body a :
  enabled (config m) = true -> uuid <> ""%string -> quiet_subscribers m ->
  let m0 := st (start_activity uuid now0 AGENT_EXECUTION
                  (agent +:+ ": " +:+ String.substring 0 50 task)
                  (Some {[ "agent"%string := PStr agent;
                           "task"%string := PStr task ]}) None m) in
  let b := body m0 in
  enabled (config (b_st b)) = true ->
  enable_agent_metrics (config (b_st b)) = true ->
  activities (b_st b) !! uuid = Some a ->
  quiet_subscribers (b_st b) ->
  0 <= max_history (config (b_st b)) ->
  let h := monitor_agent_execution agent task uuid now0 t0 t1 now1 body m in
  let old := default (new_agent_metrics agent)
               (agent_metrics (b_st b) !! agent) in
  b_out h = b_out b
  /\ activities (b_st h) !! uuid = None
  /\ exists record new,
       last (activities_history (b_st h)) = Some record
       /\ act_id record = act_id a
       /\ (act_status record = FAILED
           <-> exists msg, b_out b = Raised (Exception msg))
       /\ (act_status record = COMPLETED
           <-> ~ exists msg, b_out b = Raised (Exception msg))
       /\ act_duration record = Some (total_seconds (now1 - act_timestamp a))
       /\ act_metadata record !! "duration"%string
          = Some (PFloat (t1 - t0)%Q)
       /\ act_metadata record !! "error"%string
          = match hook_error (b_out b) with
            | Some msg =>
                if String.eqb msg "" then act_metadata a !! "error"%string
                else Some (PStr msg)
            | None => act_metadata a !! "error"%string
            end
       /\ agent_metrics (b_st h) !! agent = Some new
       /\ tasks_completed new + tasks_failed new
          = tasks_completed old + tasks_failed old + 1.
Proof.
  intros He Hu Hq. cbv zeta. intros Hbe Hba Hlive Hbq Hcap.
  destruct (agent_hook_effect m agent task uuid now0 t0 t1 now1 body a
              He Hu Hq Hbe Hba Hlive Hbq) as (H1 & _ & _ & H4 & H5 & H6).
  split; [exact H1|]. rewrite H4, H5, H6, lookup_delete_eq.
  split; [done|].
  remember (body _) as b eqn:Hb. clear Hb.
  eexists. eexists.
  split; [by apply last_trim_snoc|].
  split; [done|].
  destruct (agent_end_metadata_lookup (t1 - t0)%Q (hook_error (b_out b))
              (act_metadata a)) as [Hd Herr].
  rewrite finalize_metadata by apply truthy_agent_end_metadata.
  cbn [finalize act_status act_duration].
  rewrite Hd, Herr, lookup_insert_eq.
  split.
  { destruct (b_out b) as [[]|[msg|msg]]; simpl; split;
      try done; eauto; by intros [? ?]. }
  split.
  { destruct (b_out b) as [[]|[msg|msg]]; simpl; split; try done;
      try (intros _ [? [=]]); intros H; destruct H; eauto. }
  split; [done|]. split; [done|]. split.
  { destruct (b_out b) as [[]|[msg|msg]];
      cbn [hook_error truthy_error error_value]; try reflexivity.
    by destruct (String.eqb msg ""). }
  split; [done|].
  destruct (b_out b) as [[]|[msg|msg]]; simpl; unfold bump; simpl; lia.
Qed.

(** A block that raises an [Exception] with an empty text. *)
Definition failing_block : block :=
  fun m => mkBlock m [] (Raised (Exception "")).

Definition u1_started : Activity :=
  new_activity "u1" 0 AGENT_EXECUTION
    ("coder" +:+ ": " +:+ String.substring 0 50 "fix the bug")
    (Some {[ "agent"%string := PStr "coder";
             "task"%string := PStr "fix the bug" ]}) None.

Lemma quiet_subscribers_init cfg : quiet_subscribers (init cfg).
Proof. intros a. constructor. Qed.

Lemma agent_hook_outcome_witness :
  b_out (monitor_agent_execution "coder" "fix the bug" "u1" 0 (1 # 1) (3 # 1) 9
           failing_block (init default_config))
  = Raised (Exception "")
  /\ activities
       (b_st (monitor_agent_execution "coder" "fix the bug" "u1" 0
                (1 # 1) (3 # 1) 9 failing_block (init default_config)))
       !! "u1"%string = None.
Proof.
  destruct (agent_hook_outcome (init default_config) "coder" "fix the bug"
              "u1" 0 (1 # 1) (3 # 1) 9 failing_block u1_started)
    as (H1 & H2 & _).
  - reflexivity.
  - discriminate.
  - apply quiet_subscribers_init.
  - reflexivity.
  - reflexivity.
  - vm_compute. reflexivity.
  - intros a. constructor.
  - vm_compute. discriminate.
  - split; [exact H1|exact H2].
Defined.

(** X14. A block that is interrupted by a [BaseException] which is not an
    [Exception] (a keyboard interrupt, a cancelled task) is not seen by
    the [except Exception] clause of [monitor_agent_execution].  Under
    these conditions: the monitor is enabled when the hook starts and the
    identifier is not empty; after the block the monitor is still enabled,
    [enable_agent_metrics] is on, the activity the hook started is still
    live, and [max_history] is at least 0; and the subscribers registered
    before and after the block raise nothing but [Exception]s.  Then the
    last entry of the history is a completed record, the agent is credited
    with one more completed task and no failed one, and the interruption
    is passed on. *)
Theorem interrupted_block_is_completed
  m agent task uuid now0 t0 t1 now1 body a msg :
  enabled (config m) = true -> uuid <> ""%string -> quiet_subscribers m ->
  let m0 := st (start_activity uuid now0 AGENT_EXECUTION
                  (agent +:+ ": " +:+ String.substring 0 50 task)
                  (Some {[ "agent"%string := PStr agent;
                           "task"%string := PStr task ]}) None m) in
  let b := body m0 in
  enabled (config (b_st b)) = true ->
  enable_agent_metrics (config (b_st b)) = true ->
  activities (b_st b) !! uuid = Some a ->
  quiet_subscribers (b_st b) ->
  0 <= max_history (config (b_st b)) ->
  b_out b = Raised (BaseException msg) ->
  let h := monitor_agent_execution agent task uuid now0 t0 t1 now1 body m in
  let old := default (new_agent_metrics agent)
               (agent_metrics (b_st b) !! agent) in
  b_out h = Raised (BaseException msg)
  /\ exists record new,
       last (activities_history (b_st h)) = Some record
       /\ act_status record = COMPLETED
       /\ agent_metrics (b_st h) !! agent = Some new
       /\ tasks_completed new = tasks_completed old + 1
       /\ tasks_failed new = tasks_failed old.
Proof.
  intros He Hu Hq. cbv zeta. intros Hbe Hba Hlive Hbq Hcap Hout.
  destruct (agent_hook_effect m agent task uuid now0 t0 t1 now1 body a
              He Hu Hq Hbe Hba Hlive Hbq) as (H1 & _ & _ & _ & H5 & H6).
  rewrite H1, H5, H6, Hout, lookup_insert_eq.
  split; [done|]. eexists. eexists.
  split; [by apply last_trim_snoc|]. by repeat split.
Qed.

Definition interrupted_block : block :=
  fun m => mkBlock m [] (Raised (BaseException "KeyboardInterrupt")).

Lemma interrupted_block_is_completed_witness :
  b_out (monitor_agent_execution "coder" "fix the bug" "u1" 0 (1 # 1) (3 # 1) 9
           interrupted_block (init default_config))
  = Raised (BaseException "KeyboardInterrupt")
  /\ exists record new,
       last (activities_history
               (b_st (monitor_agent_execution "coder" "fix the bug" "u1" 0
                        (1 # 1) (3 # 1) 9 interrupted_block
                        (init default_config)))) = Some record
       /\ act_status record = COMPLETED
       /\ agent_metrics
            (b_st (monitor_agent_execution "coder" "fix the bug" "u1" 0
                     (1 # 1) (3 # 1) 9 interrupted_block
                     (init default_config))) !! "coder"%string = Some new
       /\ tasks_completed new = 0 + 1
       /\ tasks_failed new = 0.
Proof.
  apply (interrupted_block_is_completed (init default_config) "coder"
           "fix the bug" "u1" 0 (1 # 1) (3 # 1) 9 interrupted_block
           u1_started "KeyboardInterrupt").
  - reflexivity.
  - discriminate.
  - apply quiet_subscribers_init.
  - reflexivity.
  - reflexivity.
  - vm_compute. reflexivity.
  - intros a. constructor.
  - vm_compute. discriminate.
  - reflexivity.
Defined.

(** ** The hooks on a disabled monitor *)

Lemma block_eta (b : block_result) :
  mkBlock (b_st b) ([] ++ b_calls b ++ []) (b_out b) = b.
Proof. destruct b. simpl. by rewrite app_nil_r. Qed.

Lemma end_activity_empty s md now m :
  end_activity "" s md now m = unchanged m None.
Proof. unfold end_activity. by rewrite orb_true_r. Qed.

(** X15. On a disabled monitor the context managers are transparent:
    [start_activity] hands back the empty identifier, the [finally] part
    ends nothing, and the block runs as if there were no hook, with the
    same state, subscriber calls and outcome.  For
    [monitor_agent_execution] this needs the monitor to be still disabled
    after the block, since its [update_agent_metrics] call looks at the
    flag again. *)
Theorem hooks_disabled_transparent m body s1 s2 z uuid now0 t0 t1 now1 :
  enabled (config m) = false ->
  monitor_file_operation s1 s2 uuid now0 t0 t1 now1 body m = body m
  /\ monitor_command_execution s1 uuid now0 t0 t1 now1 body m = body m
  /\ monitor_llm_call s1 z uuid now0 t0 t1 now1 body m = body m
  /\ (enabled (config (b_st (body m))) = false ->
      monitor_agent_execution s1 s2 uuid now0 t0 t1 now1 body m = body m).
Proof.
  intros Hd.
  unfold monitor_file_operation, monitor_command_execution,
    monitor_llm_call, monitor_agent_execution, scoped, start_activity.
  rewrite Hd. cbn [negb unchanged ret st calls default].
  rewrite !end_activity_empty. cbn [unchanged ret st calls].
  repeat split; try apply block_eta.
  intros Hd'. unfold update_agent_metrics. rewrite Hd'.
  cbn [negb orb unchanged st]. apply block_eta.
Qed.

Lemma hooks_disabled_transparent_witness :
  monitor_file_operation "read" "/tmp/x" "u1" 0 (1 # 1) (3 # 1) 9
    failing_block (init disabled_config)
  = failing_block (init disabled_config).
Proof.
  destruct (hooks_disabled_transparent (init disabled_config) failing_block
              "read" "/tmp/x" 0 "u1" 0 (1 # 1) (3 # 1) 9) as [H _];
    [reflexivity|exact H].
Defined.

(** ** [record_network_request] *)

Definition status_code_value (status_code : option Z) : pyval :=
  match status_code with
  | Some c => PInt c
  | None => PNone
  end.

(** X16. [record_network_request] on an enabled monitor, with an
    identifier that is not empty and not live, and with subscribers that
    raise nothing but [Exception]s: the call returns, the live set is left
    as it was, the history is the old one with one completed record
    appended and then trimmed to [max_history], the started and completed
    counters grow by one and the total duration by the time between the
    two clock readings, and every subscriber is called twice, first (all
    of them, in order) with the started record and then with the completed
    one.  The status code is stored also when it is [None]. *)
Theorem network_request_recorded m url method status_code uuid now0 now1 :
  enabled (config m) = true -> uuid <> ""%string ->
  activities m !! uuid = None -> quiet_subscribers m ->
  let started :=
    new_activity uuid now0 NETWORK_REQUEST (method +:+ " " +:+ url)
      (Some {[ "url"%string := PStr url; "method"%string := PStr method ]})
      None in
  let record :=
    finalize started COMPLETED
      (Some {[ "status_code"%string := status_code_value status_code ]})
      now1 in
  let h := record_network_request url method status_code uuid now0 now1 m in
  b_out h = Returned tt
  /\ activities (b_st h) = activities m
  /\ activities_history (b_st h)
     = trim (max_history (config m)) (activities_history m ++ [record])
  /\ stats (b_st h)
     = mkStats (activities_started (stats m) + 1)
         (activities_completed (stats m) + 1) (activities_failed (stats m))
         (total_duration (stats m) + total_seconds (now1 - now0))%Q
  /\ b_calls h = deliveries m started ++ deliveries m record
  /\ act_status record = COMPLETED
  /\ act_metadata record !! "status_code"%string
     = Some (status_code_value status_code).
Proof.
  intros He Hu Hnew Hq. cbv zeta.
  unfold record_network_request, scoped.
  rewrite (start_activity_caught m uuid now0 _ _ _ _ He Hq).
  cbn [ret st calls default b_st b_calls b_out].
  erewrite end_activity_caught; cycle 1.
  - exact He.
  - exact Hu.
  - cbn [activities]. apply lookup_insert_eq.
  - exact Hq.
  - cbn [ret st calls activities activities_history stats config].
    rewrite delete_insert_id by done.
    by repeat split.
Qed.

Lemma network_request_recorded_witness :
  b_out (record_network_request "http://x" "GET" None "n1" 0 4
           (init default_config)) = Returned tt
  /\ activities (b_st (record_network_request "http://x" "GET" None "n1" 0 4
                         (init default_config)))
     = activities (init default_config).
Proof.
  destruct (network_request_recorded (init default_config) "http://x" "GET"
              None "n1" 0 4) as (H1 & H2 & _).
  - reflexivity.
  - discriminate.
  - reflexivity.
  - apply quiet_subscribers_init.
  - split; [exact H1|exact H2].
Defined.

(** ** A series of [monitor_agent_execution] runs *)

(** One run of the hook for a given agent: the task, the identifier and
    the four clock readings, and the block. *)
Record hook_call := mkHookCall {
  hc_task : string;
  hc_uuid : string;
  hc_now0 : Z;
  hc_t0 : Q;
  hc_t1 : Q;
  hc_now1 : Z;
  hc_body : block
}.

Definition run_hook (agent : string) (c : hook_call) : block :=
  monitor_agent_execution agent (hc_task c) (hc_uuid c) (hc_now0 c)
    (hc_t0 c) (hc_t1 c) (hc_now1 c) (hc_body c).

Definition run_hooks (agent : string) (m : ActivityMonitor)
  (cs : list hook_call) : ActivityMonitor :=
  foldl (fun m c => b_st (run_hook agent c m)) m cs.

(** A block that leaves the configuration, the agent metrics and the
    subscribers as they are. *)
Definition tame (body : block) : Prop :=
  forall m,
    config (b_st (body m)) = config m
    /\ agent_metrics (b_st (body m)) = agent_metrics m
    /\ subscribers (b_st (body m)) = subscribers m.

Lemma end_activity_frame i s md now m :
  config (st (end_activity i s md now m)) = config m
  /\ agent_metrics (st (end_activity i s md now m)) = agent_metrics m
  /\ subscribers (st (end_activity i s md now m)) = subscribers m.
Proof.
  destruct (step_frame m (EndActivity i s md now))
    as (_ & _ & _ & _ & H5 & H6 & H7).
  cbv zeta in *. cbn [step] in *. by rewrite H5, H6, H7.
Qed.

Lemma run_hook_metrics agent c m :
  enabled (config m) = true -> enable_agent_metrics (config m) = true ->
  quiet_subscribers m -> tame (hc_body c) ->
  exists status,
    config (b_st (run_hook agent c m)) = config m
    /\ subscribers (b_st (run_hook agent c m)) = subscribers m
    /\ agent_metrics (b_st (run_hook agent c m))
       = <[agent := apply_update
                      (agent_update status (hc_t1 c - hc_t0 c)%Q)
                      (default (new_agent_metrics agent)
                         (agent_metrics m !! agent))]> (agent_metrics m)
    /\ (status = COMPLETED \/ status = FAILED).
Proof.
  intros He Ha Hq Ht.
  unfold run_hook, monitor_agent_execution, scoped.
  rewrite (start_activity_caught m _ _ _ _ _ _ He Hq).
  cbn [ret st calls default].
  match goal with
  | |- context [hc_body c ?m0] =>
      destruct (Ht m0) as (Hc & Hag & Hsub);
      remember (hc_body c m0) as b eqn:Hb
  end.
  cbn [config agent_metrics subscribers] in Hc, Hag, Hsub.
  exists (hook_status (b_out b)).
  cbn [b_st]. unfold id.
  destruct (end_activity_frame (hc_uuid c) (hook_status (b_out b))
              (Some (agent_end_metadata (hc_t1 c - hc_t0 c)%Q
                       (hook_error (b_out b)))) (hc_now1 c)
              (st (update_agent_metrics agent
                     (agent_update (hook_status (b_out b))
                        (hc_t1 c - hc_t0 c)%Q) (b_st b))))
    as (F1 & F2 & F3).
  rewrite F1, F2, F3. unfold update_agent_metrics.
  rewrite Hc, He, Ha. cbn [negb orb unchanged st config subscribers
                             agent_metrics].
  rewrite ?Hc, ?Hag, ?Hsub. repeat split.
  destruct (b_out b) as [[]|[msg|msg]]; simpl; auto.
Qed.

Lemma running_proper am k s1 s2 :
  (s1 == s2)%Q -> running am k s1 -> running am k s2.
Proof. intros Hs [H1 H2 H3 H4]. split; try done. by rewrite <- Hs. Qed.

Lemma run_hooks_running agent cs : forall m k sigma,
  enabled (config m) = true -> enable_agent_metrics (config m) = true ->
  quiet_subscribers m -> Forall (fun c => tame (hc_body c)) cs ->
  running (default (new_agent_metrics agent) (agent_metrics m !! agent))
    k sigma ->
  let m' := run_hooks agent m cs in
  running (default (new_agent_metrics agent) (agent_metrics m' !! agent))
    (k + Z.of_nat (length cs))
    (sigma + Qsum ((fun c => hc_t1 c - hc_t0 c)%Q <$> cs))%Q
  /\ (cs <> [] -> is_Some (agent_metrics m' !! agent)).
Proof.
  induction cs as [|c cs IH]; intros m k sigma He Ha Hq Ht Hr; cbv zeta.
  - simpl. split; [|done]. rewrite Z.add_0_r.
    apply (running_proper _ _ sigma); [|done]. unfold Qsum. simpl. ring.
  - apply Forall_cons in Ht as [Htc Ht].
    destruct (run_hook_metrics agent c m He Ha Hq Htc)
      as (status & Hc & Hsub & Hag & Hst).
    unfold run_hooks. cbn [foldl]. fold (run_hooks agent).
    remember (b_st (run_hook agent c m)) as m1 eqn:Hm1.
    assert (running (default (new_agent_metrics agent)
                       (agent_metrics m1 !! agent))
              (k + 1) (sigma + (hc_t1 c - hc_t0 c))%Q) as Hr1.
    { rewrite Hag, lookup_insert_eq. cbn [default].
      apply running_sample; [done| |].
      - by destruct Hst as [-> | ->].
      - by destruct Hst as [-> | ->]. }
    destruct (IH m1 (k + 1) (sigma + (hc_t1 c - hc_t0 c))%Q) as [IH1 IH2].
    + by rewrite Hc.
    + by rewrite Hc.
    + intros a. rewrite Hsub. apply Hq.
    + done.
    + done.
    + cbv zeta in IH1, IH2. split.
      * rewrite length_cons, Nat2Z.inj_succ, fmap_cons, Qsum_cons.
        replace (k + Z.succ (Z.of_nat (length cs)))
          with (k + 1 + Z.of_nat (length cs)) by lia.
        eapply running_proper; [|exact IH1]. ring.
      * intros _. destruct cs as [|c' cs'].
        -- simpl. rewrite Hag, lookup_insert_eq. eauto.
        -- by apply IH2.
Qed.

(** X17. A series of at least one [monitor_agent_execution] run for one
    agent, on a monitor that is enabled with [enable_agent_metrics] on,
    has no metrics for the agent yet, and whose subscribers raise nothing
    but [Exception]s, with blocks that leave the configuration, the agent
    metrics and the subscribers alone: afterwards the agent has one task
    counted per run, and its average response time is the arithmetic
    mean (in exact arithmetic) of the measured durations. *)
Theorem hooks_average_is_mean agent m cs :
  enabled (config m) = true -> enable_agent_metrics (config m) = true ->
  quiet_subscribers m -> Forall (fun c => tame (hc_body c)) cs ->
  agent_metrics m !! agent = None ->
  cs <> [] ->
  exists am,
    agent_metrics (run_hooks agent m cs) !! agent = Some am
    /\ tasks_completed am + tasks_failed am = Z.of_nat (length cs)
    /\ (average_response_time am
        == mean ((fun c => hc_t1 c - hc_t0 c)%Q <$> cs))%Q.
Proof.
  intros He Ha Hq Ht Hnew Hne.
  destruct (run_hooks_running agent cs m 0 0%Q He Ha Hq Ht) as [Hr Hsome].
  { rewrite Hnew. by split. }
  cbv zeta in Hr, Hsome. destruct (Hsome Hne) as [am Ham].
  rewrite Ham in Hr.
  change (default (new_agent_metrics agent) (Some am)) with am in Hr.
  exists am. split; [done|]. split.
  - destruct Hr as [H1 _ _ _]. lia.
  - apply running_mean. by rewrite length_fmap.
Qed.

Definition two_runs : list hook_call :=
  [mkHookCall "plan" "h1" 0 (1 # 1) (3 # 1) 5 failing_block;
   mkHookCall "code" "h2" 6 (4 # 1) (7 # 1) 9 interrupted_block].

Lemma hooks_average_is_mean_witness :
  exists am,
    agent_metrics (run_hooks "coder" (init default_config) two_runs)
      !! "coder"%string = Some am
    /\ tasks_completed am + tasks_failed am = Z.of_nat (length two_runs)
    /\ (average_response_time am
        == mean ((fun c => hc_t1 c - hc_t0 c)%Q <$> two_runs))%Q.
Proof.
  apply (hooks_average_is_mean "coder" (init default_config) two_runs).
  - reflexivity.
  - reflexivity.
  - apply quiet_subscribers_init.
  - repeat constructor.
  - reflexivity.
  - discriminate.
Defined.

(** * server.py: the connection manager

    A connection is named by a number; [active_connections] is a set.
    [send] tells, for the message at hand, what [send_text] does on each
    connection.  [broadcast] below is the broadcast during which no other
    task touches [active_connections]; [broadcast_among], further down,
    follows a broadcast whose awaited sends let other tasks change the
    set, and agrees with [broadcast] when they do not
    ([broadcast_alone]). *)

(** [connect], once [websocket.accept()] has returned. *)
Definition connect (ws : nat) (active : gset nat) : gset nat :=
  {[ ws ]} ∪ active.

(** [set.remove] raises [KeyError] for a missing element. *)
Definition disconnect (ws : nat) (active : gset nat)
  : gset nat * outcome unit :=
  if decide (ws ∈ active) then (active ∖ {[ ws ]}, Returned tt)
  else (active, Raised (Exception "KeyError")).

(** The first loop of [broadcast]: the connections whose [send_text]
    raised an [Exception]. *)
Fixpoint failed_sends (send : nat -> outcome unit) (conns : list nat)
  (disconnected : gset nat) : gset nat * outcome unit :=
  match conns with
  | [] => (disconnected, Returned tt)
  | c :: rest =>
      match send c with
      | Returned _ => failed_sends send rest disconnected
      | Raised (Exception _) => failed_sends send rest ({[ c ]} ∪ disconnected)
      | Raised (BaseException msg) =>
          (disconnected, Raised (BaseException msg))
      end
  end.

(** [broadcast] with the set untouched by other tasks from its first to
    its last line: the removal loop then finds every connection it
    removes. *)
Definition broadcast (send : nat -> outcome unit) (active : gset nat)
  : gset nat * outcome unit :=
  match failed_sends send (elements active) ∅ with
  | (disconnected, Returned _) => (active ∖ disconnected, Returned tt)
  | (_, Raised e) => (active, Raised e)
  end.

Lemma failed_sends_spec send conns : forall acc,
  (forall c msg, c ∈ conns -> send c <> Raised (BaseException msg)) ->
  exists d,
    failed_sends send conns acc = (d, Returned tt)
    /\ forall c,
         c ∈ d <-> c ∈ acc \/ (c ∈ conns /\ exists msg, send c = Raised (Exception msg)).
Proof.
  induction conns as [|c conns IH]; intros acc Hsafe; simpl.
  - exists acc. split; [done|]. intros c. split; [by left|].
    intros [?|[Hc _]]; [done|]. by apply elem_of_nil in Hc.
  - assert (forall c' msg, c' ∈ conns -> send c' <> Raised (BaseException msg))
      as Hsafe' by (intros c' msg Hc'; apply Hsafe; by right).
    destruct (send c) as [[]|[msg|msg]] eqn:Hs.
    + destruct (IH acc Hsafe') as (d & -> & Hd). exists d. split; [done|].
      intros c'. rewrite Hd. split.
      * intros [?|[Hc' He]]; [by left|]. right. split; [by right|done].
      * intros [?|[Hc' [m He]]]; [by left|].
        apply elem_of_cons in Hc' as [->|Hc']; [congruence|].
        right. eauto.
    + destruct (IH ({[c]} ∪ acc) Hsafe') as (d & -> & Hd). exists d.
      split; [done|]. intros c'. rewrite Hd, elem_of_union, elem_of_singleton.
      split.
      * intros [[->|?]|[Hc' He]].
        -- right. split; [by left|eauto].
        -- by left.
        -- right. split; [by right|done].
      * intros [?|[Hc' [m He]]]; [left; by right|].
        apply elem_of_cons in Hc' as [->|Hc']; [left; by left|].
        right. eauto.
    + destruct (Hsafe c msg); [by left|done].
Qed.

Lemma broadcast_spec send active :
  (forall c msg, c ∈ active -> send c <> Raised (BaseException msg)) ->
  (broadcast send active).2 = Returned tt
  /\ forall c,
       c ∈ (broadcast send active).1
       <-> c ∈ active /\ exists v, send c = Returned v.
Proof.
  intros Hsafe. unfold broadcast.
  destruct (failed_sends_spec send (elements active) ∅) as (d & -> & Hd).
  { intros c msg Hc. apply Hsafe. by apply elem_of_elements. }
  split; [done|]. intros c. simpl. rewrite elem_of_difference, Hd.
  split.
  - intros [Hc Hn]. split; [done|].
    destruct (send c) as [v|[msg|msg]] eqn:Hs; [eauto| |].
    + destruct Hn. right. split; [by apply elem_of_elements|eauto].
    + by destruct (Hsafe c msg).
  - intros [Hc [v Hv]]. split; [done|].
    intros [Hin|[_ [msg Hm]]]; [by apply not_elem_of_empty in Hin|congruence].
Qed.

(** ** A broadcast among other tasks

    [broadcast] awaits every [send_text], and while it waits other tasks
    run: a [connect], a [disconnect], the removal loop of another
    broadcast.  [others] tells, for each awaited send in turn, what they
    did to [active_connections] meanwhile: nothing ([None]), or changes
    that left the set as [Some K]; a list that is too short stands for no
    further changes.

    The [for] loop iterates over the set itself.  Its iterator raises
    [RuntimeError] (set changed size during iteration) when the size of
    the set differs from the size at the start of the loop; the exception
    is raised outside the [try], so it leaves [broadcast] before the
    removal loop.  When the set was changed and has its old size, which
    elements the iterator still yields depends on the layout of the hash
    table: that case, which includes the [KeyError] of a removal loop that
    finds a connection already removed, is left undetermined. *)
Inductive loop_end :=
| Exhausted (disconnected : gset nat)
| Interrupted (active : gset nat) (e : exn)
| Undetermined.

Fixpoint send_loop (send : nat -> outcome unit) (size0 : nat)
  (conns : list nat) (others : list (option (gset nat)))
  (active disconnected : gset nat) : loop_end :=
  match conns with
  | [] => Exhausted disconnected
  | c :: rest =>
      let meanwhile := hd None others in
      match send c with
      | Raised (BaseException msg) =>
          Interrupted (default active meanwhile) (BaseException msg)
      | sent =>
          let disconnected' :=
            match sent with
            | Raised _ => {[ c ]} ∪ disconnected
            | Returned _ => disconnected
            end in
          match meanwhile with
          | None =>
              send_loop send size0 rest (tl others) active disconnected'
          | Some K =>
              if decide (size K = size0) then Undetermined
              else Interrupted K (Exception "RuntimeError")
          end
      end
  end.

Definition broadcast_among (others : list (option (gset nat)))
  (send : nat -> outcome unit) (active : gset nat)
  : option (gset nat * outcome unit) :=
  match send_loop send (size active) (elements active) others active ∅ with
  | Exhausted disconnected => Some (active ∖ disconnected, Returned tt)
  | Interrupted K e => Some (K, Raised e)
  | Undetermined => None
  end.

(** No other task touches the set during the broadcast. *)
Definition undisturbed (others : list (option (gset nat))) : Prop :=
  Forall (fun o => o = None) others.

Lemma send_loop_undisturbed send size0 conns : forall others active d,
  undisturbed others ->
  send_loop send size0 conns others active d
  = match failed_sends send conns d with
    | (d', Returned _) => Exhausted d'
    | (_, Raised e) => Interrupted active e
    end.
Proof.
  induction conns as [|c conns IH]; intros others active d Hq; [done|].
  assert (hd None others = None /\ undisturbed (tl others)) as [Hh Ht].
  { destruct Hq as [|o os Ho Hos]; simpl; [split; [done|constructor]|done]. }
  cbn [send_loop failed_sends]. rewrite Hh.
  destruct (send c) as [[]|[msg|msg]]; cbn [default]; by rewrite ?IH.
Qed.

(** [broadcast] is the broadcast that no other task disturbs. *)
Lemma broadcast_alone others send active :
  undisturbed others ->
  broadcast_among others send active = Some (broadcast send active).
Proof.
  intros Hq. unfold broadcast_among, broadcast.
  rewrite send_loop_undisturbed by done.
  by destruct (failed_sends send (elements active) ∅) as [d [[]|e]].
Qed.

Lemma send_loop_set_changed send size0 pre c post tail K : forall active d,
  (forall x msg, x ∈ pre ++ [c] -> send x <> Raised (BaseException msg)) ->
  size K <> size0 ->
  send_loop send size0 (pre ++ c :: post)
    (replicate (length pre) None ++ Some K :: tail) active d
  = Interrupted K (Exception "RuntimeError").
Proof.
  induction pre as [|p pre IH]; intros active d Hsafe Hsize.
  - cbn [app length replicate send_loop hd].
    destruct (send c) as [[]|[msg|msg]] eqn:Hs.
    + by destruct (decide (size K = size0)).
    + by destruct (decide (size K = size0)).
    + destruct (Hsafe c msg); [by apply list_elem_of_singleton|done].
  - cbn [app length replicate send_loop hd tl].
    assert (forall x msg, x ∈ pre ++ [c] -> send x <> Raised (BaseException msg))
      as Hsafe' by (intros x msg Hx; apply Hsafe; by right).
    destruct (send p) as [[]|[msg|msg]] eqn:Hs.
    + by apply IH.
    + by apply IH.
    + destruct (Hsafe p msg); [by left|done].
Qed.

(** X18. A broadcast during which no other task changes the connection
    set and no [send_text] is interrupted keeps exactly the connections on
    which the message went out: it returns, a connection is active
    afterwards if and only if it was active before and its [send_text]
    returned, the connections whose send raised an [Exception] are
    dropped, and no connection is added.  When instead the first change
    that other tasks make to the set during the broadcast, while some
    [send_text] is awaited, changes its size, and no send up to that one
    is interrupted, the broadcast raises [RuntimeError] and removes
    nothing: the set is left as the other tasks left it. *)
Theorem broadcast_keeps_reachable others send active :
  (undisturbed others ->
   (forall c msg, c ∈ active -> send c <> Raised (BaseException msg)) ->
   exists K,
     broadcast_among others send active = Some (K, Returned tt)
     /\ K ⊆ active
     /\ forall c, c ∈ K <-> c ∈ active /\ exists v, send c = Returned v)
  /\ (forall pre c post tail K,
        elements active = pre ++ c :: post ->
        others = replicate (length pre) None ++ Some K :: tail ->
        (forall x msg, x ∈ pre ++ [c] ->
                       send x <> Raised (BaseException msg)) ->
        size K <> size active ->
        broadcast_among others send active
        = Some (K, Raised (Exception "RuntimeError"))).
Proof.
  split.
  - intros Hq Hsafe. rewrite (broadcast_alone others send active Hq).
    destruct (broadcast_spec send active Hsafe) as [H1 H2].
    destruct (broadcast send active) as [K o]. simpl in H1, H2. subst o.
    exists K. split; [done|]. split; [|done].
    intros c Hc. by apply H2 in Hc as [? _].
  - intros pre c post tail K Hel -> Hsafe Hsize.
    unfold broadcast_among. rewrite Hel.
    by rewrite (send_loop_set_changed send (size active) pre c post tail K).
Qed.

Definition unreachable (bad : nat) (c : nat) : outcome unit :=
  if decide (c = bad) then Raised (Exception "closed") else Returned tt.

Lemma broadcast_keeps_reachable_witness :
  exists K,
    broadcast_among [] (unreachable 2) {[ 1%nat; 2%nat; 3%nat ]}
    = Some (K, Returned tt)
    /\ K ⊆ {[ 1%nat; 2%nat; 3%nat ]}
    /\ forall c, c ∈ K
         <-> c ∈ ({[ 1%nat; 2%nat; 3%nat ]} : gset nat)
             /\ exists v, unreachable 2 c = Returned v.
Proof.
  apply (proj1 (broadcast_keeps_reachable [] (unreachable 2)
                  {[ 1%nat; 2%nat; 3%nat ]})).
  - constructor.
  - intros c msg _. unfold unreachable. by destruct (decide (c = 2%nat)).
Defined.

(** X19. After a broadcast has dropped a connection whose send failed,
    [disconnect] for that connection (the handler of
    [WebSocketDisconnect]) raises [KeyError] and leaves the set as it
    is. *)
Theorem disconnect_after_drop_raises send active ws msg :
  (forall c m, c ∈ active -> send c <> Raised (BaseException m)) ->
  send ws = Raised (Exception msg) ->
  disconnect ws (broadcast send active).1
  = ((broadcast send active).1, Raised (Exception "KeyError")).
Proof.
  intros Hsafe Hws. unfold disconnect.
  destruct (decide (ws ∈ (broadcast send active).1)) as [Hin|Hnin]; [|done].
  apply (broadcast_spec send active Hsafe) in Hin as [_ [v Hv]].
  congruence.
Qed.

Lemma disconnect_after_drop_raises_witness :
  disconnect 2 (broadcast (unreachable 2) {[ 1%nat; 2%nat; 3%nat ]}).1
  = ((broadcast (unreachable 2) {[ 1%nat; 2%nat; 3%nat ]}).1,
     Raised (Exception "KeyError")).
Proof.
  apply (disconnect_after_drop_raises (unreachable 2)
           {[ 1%nat; 2%nat; 3%nat ]} 2 "closed").
  - intros c m _. unfold unreachable. by destruct (decide (c = 2%nat)).
  - reflexivity.
Defined.

(** * config.py: [MonitoringConfig]

    A configuration value is a scalar or a dictionary; a dictionary is a
    list of entries with distinct keys, in insertion order. *)

#[local] Unset Elimination Schemes.
Inductive cval :=
| VNone
| VBool (b : bool)
| VInt (z : Z)
| VFloat (q : Q)
| VStr (s : string)
| VDict (d : list (string * cval)).
#[local] Set Elimination Schemes.

Definition cdict : Type := list (string * cval).

Fixpoint dict_get (k : string) (d : cdict) : option cval :=
  match d with
  | [] => None
  | (k', v) :: d' => if decide (k = k') then Some v else dict_get k d'
  end.

(** [d[k] = v]: an existing key keeps its place, a new key goes last. *)
Fixpoint dict_set (k : string) (v : cval) (d : cdict) : cdict :=
  match d with
  | [] => [(k, v)]
  | (k', v') :: d' =>
      if decide (k = k') then (k, v) :: d' else (k', v') :: dict_set k v d'
  end.

(** The value that the loop of [_merge_configs] stores under a key:
    the merge of the two dictionaries when the custom value and the
    value already in the result are both dictionaries, the custom value
    otherwise.  [r] is [result.get(key)]. *)
Fixpoint merge_value (r : option cval) (value : cval) {struct value} : cval :=
  match value, r with
  | VDict custom, Some (VDict dflt) =>
      VDict
        ((fix loop (custom : cdict) (result : cdict) {struct custom} : cdict :=
            match custom with
            | [] => result
            | (key, value') :: rest =>
                loop rest
                  (dict_set key (merge_value (dict_get key result) value')
                     result)
            end) custom dflt)
  | _, _ => value
  end.

Definition merge_entry (result : cdict) (kv : string * cval) : cdict :=
  dict_set kv.1 (merge_value (dict_get kv.1 result) kv.2) result.

(** [_merge_configs(default, custom)] *)
Definition merge_configs (dflt custom : cdict) : cdict :=
  foldl merge_entry dflt custom.

Lemma merge_value_dicts dflt custom :
  merge_value (Some (VDict dflt)) (VDict custom)
  = VDict (merge_configs dflt custom).
Proof.
  unfold merge_configs. simpl. f_equal. revert dflt.
  induction custom as [|[k v] custom IH]; intros dflt; [done|].
  simpl. by rewrite IH.
Qed.

(** [MonitoringConfig.default_config] *)
Definition default_config_dict : cdict :=
  [("enabled"%string, VBool true);
   ("server"%string,
    VDict [("host"%string, VStr "0.0.0.0");
           ("port"%string, VInt 8000);
           ("enable_cors"%string, VBool true)]);
   ("visualization"%string,
    VDict [("update_interval"%string, VFloat (1 # 10));
           ("max_history"%string, VInt 1000);
           ("enable_resource_monitoring"%string, VBool true);
           ("enable_agent_metrics"%string, VBool true);
           ("enable_detailed_logging"%string, VBool false)]);
   ("integration"%string,
    VDict [("auto_patch_agents"%string, VBool true);
           ("auto_patch_tools"%string, VBool true);
           ("auto_start_server"%string, VBool false)])].

(** [MonitoringConfig(config_dict)._config] *)
Definition MonitoringConfig (config_dict : option cdict) : cdict :=
  merge_configs default_config_dict
    match config_dict with
    | Some d => d
    | None => []
    end.

(** [v[k]]: [KeyError] for a missing key, [TypeError] when [v] is not a
    dictionary. *)
Definition subscript (v : cval) (k : string) : outcome cval :=
  match v with
  | VDict d =>
      match dict_get k d with
      | Some x => Returned x
      | None => Raised (Exception "KeyError")
      end
  | _ => Raised (Exception "TypeError")
  end.

Definition bind_outcome {A B : Type} (o : outcome A) (f : A -> outcome B)
  : outcome B :=
  match o with
  | Returned a => f a
  | Raised e => Raised e
  end.

(** The property [enabled]. *)
Definition config_enabled (cfg : cdict) : outcome cval :=
  subscript (VDict cfg) "enabled".

(** The arguments handed to [VisualizationConfig(...)]; the dataclass does
    not check their types. *)
Record RawVisualizationConfig := mkRaw {
  raw_enabled : cval;
  raw_update_interval : cval;
  raw_max_history : cval;
  raw_enable_resource_monitoring : cval;
  raw_enable_agent_metrics : cval;
  raw_enable_detailed_logging : cval
}.

(** The property [visualization_config]. *)
Definition visualization_config (cfg : cdict) : outcome RawVisualizationConfig :=
  bind_outcome (subscript (VDict cfg) "visualization") (fun viz =>
  bind_outcome (config_enabled cfg) (fun en =>
  bind_outcome (subscript viz "update_interval") (fun ui =>
  bind_outcome (subscript viz "max_history") (fun mh =>
  bind_outcome (subscript viz "enable_resource_monitoring") (fun rm =>
  bind_outcome (subscript viz "enable_agent_metrics") (fun am =>
  bind_outcome (subscript viz "enable_detailed_logging") (fun dl =>
  Returned (mkRaw en ui mh rm am dl)))))))).

(** ** Lookups in a merged configuration *)

Lemma dict_get_set_eq k v d : dict_get k (dict_set k v d) = Some v.
Proof.
  induction d as [|[k' v'] d IH]; simpl.
  - by rewrite decide_True.
  - destruct (decide (k = k')) as [<-|Hne]; simpl.
    + by rewrite decide_True.
    + by rewrite decide_False.
Qed.

Lemma dict_get_set_ne k k' v d :
  k <> k' -> dict_get k (dict_set k' v d) = dict_get k d.
Proof.
  intros Hne. induction d as [|[k'' v''] d IH]; simpl.
  - by rewrite decide_False.
  - destruct (decide (k' = k'')) as [<-|Hne']; simpl.
    + by rewrite !decide_False.
    + destruct (decide (k = k'')); [done|]. apply IH.
Qed.

Lemma dict_get_None k (d : cdict) : k ∉ d.*1 -> dict_get k d = None.
Proof.
  induction d as [|[k' v'] d IH]; [done|]. simpl.
  intros Hk. apply not_elem_of_cons in Hk as [Hne Hk].
  rewrite decide_False by done. by apply IH.
Qed.

Lemma merge_configs_lookup custom : forall dflt k,
  NoDup custom.*1 ->
  dict_get k (merge_configs dflt custom)
  = match dict_get k custom with
    | Some v => Some (merge_value (dict_get k dflt) v)
    | None => dict_get k dflt
    end.
Proof.
  induction custom as [|[k' v'] custom IH]; intros dflt k Hnd; [done|].
  rewrite fmap_cons in Hnd. apply NoDup_cons in Hnd as [Hk' Hnd].
  unfold merge_configs. cbn [foldl]. fold (merge_configs (merge_entry dflt (k', v')) custom).
  rewrite IH by done. unfold merge_entry. cbn [fst snd dict_get].
  destruct (decide (k = k')) as [->|Hne].
  - rewrite dict_get_None by done. apply dict_get_set_eq.
  - by rewrite dict_get_set_ne.
Qed.

(** X20. [_merge_configs] looked up key by key (the custom dictionary has
    distinct keys): a key absent from the custom dictionary keeps its
    default; a key present in it takes the custom value, except that two
    dictionaries under the same key are merged in turn, so that a partial
    custom section keeps the defaults of the keys it does not mention. *)
Theorem merge_configs_override dflt custom k :
  NoDup custom.*1 ->
  dict_get k (merge_configs dflt custom)
  = match dict_get k custom, dict_get k dflt with
    | None, old => old
    | Some (VDict c), Some (VDict d) => Some (VDict (merge_configs d c))
    | Some v, _ => Some v
    end.
Proof.
  intros Hnd. rewrite merge_configs_lookup by done.
  destruct (dict_get k custom) as [v|]; [|done].
  destruct (dict_get k dflt) as [[]|], v; try done.
  by rewrite merge_value_dicts.
Qed.

Definition only_max_history (n : Z) : cdict :=
  [("visualization"%string, VDict [("max_history"%string, VInt n)])].

Lemma merge_configs_override_witness :
  dict_get "visualization" (merge_configs default_config_dict (only_max_history 0))
  = Some (VDict
            (merge_configs
               [("update_interval"%string, VFloat (1 # 10));
                ("max_history"%string, VInt 1000);
                ("enable_resource_monitoring"%string, VBool true);
                ("enable_agent_metrics"%string, VBool true);
                ("enable_detailed_logging"%string, VBool false)]
               [("max_history"%string, VInt 0)])).
Proof.
  apply (merge_configs_override default_config_dict (only_max_history 0)
           "visualization").
  repeat constructor. by apply not_elem_of_nil.
Defined.

Lemma merge_value_scalar r v :
  (forall d, r <> Some (VDict d)) -> merge_value r v = v.
Proof.
  intros Hr. destruct v; try done.
  destruct r as [[]|]; try done. by destruct (Hr d0).
Qed.

(** The section of a custom dictionary that overrides the visualization
    settings: none, or a dictionary. *)
Definition viz_section (custom : cdict) : option cdict :=
  match dict_get "visualization" custom with
  | None => Some []
  | Some (VDict cv) => Some cv
  | Some _ => None
  end.

Definition default_viz : cdict :=
  [("update_interval"%string, VFloat (1 # 10));
   ("max_history"%string, VInt 1000);
   ("enable_resource_monitoring"%string, VBool true);
   ("enable_agent_metrics"%string, VBool true);
   ("enable_detailed_logging"%string, VBool false)].

Lemma viz_lookup custom cv :
  NoDup custom.*1 -> viz_section custom = Some cv ->
  dict_get "visualization" (MonitoringConfig (Some custom))
  = Some (VDict (merge_configs default_viz cv)).
Proof.
  intros Hnd Hv. unfold MonitoringConfig, viz_section in *.
  rewrite merge_configs_lookup by done.
  destruct (dict_get "visualization" custom) as [v|].
  - destruct v; try done. injection Hv as ->.
    change (dict_get "visualization" default_config_dict)
      with (Some (VDict default_viz)).
    by rewrite merge_value_dicts.
  - by injection Hv as <-.
Qed.

Lemma viz_field cv k dv :
  NoDup cv.*1 -> dict_get k default_viz = Some dv ->
  (forall d, dv <> VDict d) ->
  subscript (VDict (merge_configs default_viz cv)) k
  = Returned (default dv (dict_get k cv)).
Proof.
  intros Hnd Hk Hs. unfold subscript.
  rewrite merge_configs_lookup, Hk by done.
  destruct (dict_get k cv) as [v|]; [|done].
  rewrite merge_value_scalar; [done|]. intros d [= ->]. by destruct (Hs d).
Qed.

(** X21. [MonitoringConfig(custom).visualization_config] for a custom
    dictionary (distinct keys at both levels) whose "visualization" entry
    is absent or a dictionary: the property does not raise, and each of
    its settings is the custom value when the custom section names it and
    the default otherwise; [enabled] comes from the top level. *)
Theorem visualization_config_override custom cv :
  NoDup custom.*1 -> viz_section custom = Some cv -> NoDup cv.*1 ->
  visualization_config (MonitoringConfig (Some custom))
  = Returned
      (mkRaw
         (default (VBool true) (dict_get "enabled" custom))
         (default (VFloat (1 # 10)) (dict_get "update_interval" cv))
         (default (VInt 1000) (dict_get "max_history" cv))
         (default (VBool true) (dict_get "enable_resource_monitoring" cv))
         (default (VBool true) (dict_get "enable_agent_metrics" cv))
         (default (VBool false) (dict_get "enable_detailed_logging" cv))).
Proof.
  intros Hnd Hv Hcv. unfold visualization_config, config_enabled.
  unfold subscript at 1. rewrite (viz_lookup custom cv Hnd Hv).
  cbn [bind_outcome].
  assert (subscript (VDict (MonitoringConfig (Some custom))) "enabled"
          = Returned (default (VBool true) (dict_get "enabled" custom)))
    as ->.
  { unfold subscript, MonitoringConfig.
    rewrite merge_configs_lookup by done.
    change (dict_get "enabled" default_config_dict)
      with (Some (VBool true)).
    destruct (dict_get "enabled" custom) as [v|]; [|done].
    by rewrite merge_value_scalar. }
  cbn [bind_outcome].
  rewrite (viz_field cv "update_interval" (VFloat (1 # 10))) by done.
  rewrite (viz_field cv "max_history" (VInt 1000)) by done.
  rewrite (viz_field cv "enable_resource_monitoring" (VBool true)) by done.
  rewrite (viz_field cv "enable_agent_metrics" (VBool true)) by done.
  rewrite (viz_field cv "enable_detailed_logging" (VBool false)) by done.
  done.
Qed.

Lemma visualization_config_override_witness :
  visualization_config (MonitoringConfig (Some (only_max_history 0)))
  = Returned
      (mkRaw (VBool true) (VFloat (1 # 10)) (VInt 0) (VBool true)
         (VBool true) (VBool false)).
Proof.
  apply (visualization_config_override (only_max_history 0)
           [("max_history"%string, VInt 0)]).
  - repeat constructor. by apply not_elem_of_nil.
  - reflexivity.
  - repeat constructor. by apply not_elem_of_nil.
Defined.

(** X22. When the custom dictionary stores something that is not a
    dictionary under "visualization", the merge replaces the whole
    default section by it, and [visualization_config] raises
    [TypeError]. *)
Theorem visualization_config_type_error custom v :
  NoDup custom.*1 ->
  dict_get "visualization" custom = Some v ->
  (forall d, v <> VDict d) ->
  dict_get "visualization" (MonitoringConfig (Some custom)) = Some v
  /\ visualization_config (MonitoringConfig (Some custom))
     = Raised (Exception "TypeError").
Proof.
  intros Hnd Hv Hs.
  assert (dict_get "visualization" (MonitoringConfig (Some custom)) = Some v)
    as Hget.
  { unfold MonitoringConfig.
    rewrite merge_configs_lookup, Hv by done.
    destruct v; try done. by destruct (Hs d). }
  split; [done|]. unfold visualization_config. unfold subscript at 1.
  rewrite Hget. cbn [bind_outcome].
  assert (exists x, config_enabled (MonitoringConfig (Some custom)) = Returned x)
    as [x ->].
  { unfold config_enabled, subscript, MonitoringConfig.
    rewrite merge_configs_lookup by done.
    change (dict_get "enabled" default_config_dict) with (Some (VBool true)).
    destruct (dict_get "enabled" custom); eauto. }
  cbn [bind_outcome]. destruct v; try done. by destruct (Hs d).
Qed.

Lemma visualization_config_type_error_witness :
  visualization_config
    (MonitoringConfig (Some [("visualization"%string, VInt 5)]))
  = Raised (Exception "TypeError").
Proof.
  apply (visualization_config_type_error
           [("visualization"%string, VInt 5)] (VInt 5)).
  - repeat constructor. by apply not_elem_of_nil.
  - reflexivity.
  - intros d. discriminate.
Defined.

(** * More invariants of the activity store *)

(** ** Children *)

Definition children_known (C : list string) (m : ActivityMonitor) : Prop :=
  (forall i a c, activities m !! i = Some a -> c ∈ act_children a -> c ∈ C)
  /\ (forall x c, x ∈ activities_history m -> c ∈ act_children x -> c ∈ C).

Lemma children_exec cfg t :
  NoDup (uuids t) ->
  children_known (created (log (init cfg) t)) (exec (init cfg) t).
Proof.
  induction t as [|o t IH] using rev_ind; intros Hnd.
  - split.
    + intros i a c Hi. change ((∅ : gmap string Activity) !! i = Some a) in Hi.
      by rewrite lookup_empty in Hi.
    + intros x c Hx. by apply elem_of_nil in Hx.
  - unfold uuids in Hnd. rewrite omap_app in Hnd.
    apply NoDup_app in Hnd as (Hnd & _ & _).
    destruct (IH Hnd) as [Hl Hh].
    destruct (inv_exec cfg t Hnd) as [Hlive _ _ _ _ _ _ _].
    rewrite log_app, exec_snoc, created_app.
    change (log (exec (init cfg) t) [o])
      with [(o, step o (exec (init cfg) t))].
    remember (exec (init cfg) t) as m eqn:Hm.
    remember (created (log (init cfg) t)) as C eqn:HC.
    assert (forall c, c ∈ C -> c ∈ C ++ created [(o, step o m)]) as Hmono
      by (intros c Hc; apply elem_of_app; by left).
    assert ((exists p c, o = AddChildActivity p c)
            \/ ~ (exists p c, o = AddChildActivity p c))
      as [(p & c & ->)|Hnc]
      by (destruct o; eauto; right; intros (? & ? & ?); discriminate).
    + cbn [step]. unfold add_child_activity.
      destruct (negb _); [split; eauto|].
      destruct (activities m !! p) as [a|] eqn:Hp; [|split; eauto].
      destruct (activities m !! c) as [b|] eqn:Hc; [|split; eauto].
      split; [|cbn; eauto]. cbn [st unchanged activities].
      intros i x c'. destruct (decide (p = i)) as [<-|Hne].
      * rewrite lookup_insert_eq. intros [= <-]. cbn [append_child act_children].
        intros [Hc'| ->%list_elem_of_singleton]%elem_of_app; [by eauto|].
        apply Hmono. by destruct (Hlive c b Hc) as (_ & _ & ?).
      * rewrite lookup_insert_ne by done. eauto.
    + destruct (step_effect m o) as
        [Ha Hh' Hp | u now ty name md p a Ho He Hid Hdur Ha Hh' Hp
         | i s md now a Ho He Hi Hlk Ha Hh' Hp | p c a Ho Hlk Ha Hh' Hp];
        [| | |destruct Hnc; eauto]; split; rewrite ?Ha, ?Hh'; eauto.
      * subst o.
        destruct (start_activity_enabled m u now ty name md p He)
          as (_ & Ha' & _).
        cbn [step] in Ha. rewrite Ha' in Ha.
        assert (a = new_activity u now ty name md p) as ->.
        { apply (f_equal (fun x => x !! u)) in Ha.
          rewrite !lookup_insert_eq in Ha. congruence. }
        intros j x c. destruct (decide (u = j)) as [<-|Hne].
        -- rewrite lookup_insert_eq. intros [= <-] Hc.
           by apply elem_of_nil in Hc.
        -- rewrite lookup_insert_ne by done. eauto.
      * intros j x c [_ Hx]%lookup_delete_Some. eauto.
      * intros x c [Hx| ->%list_elem_of_singleton]%elem_of_trim%elem_of_app;
          [eauto|]. cbn [finalize act_children]. eauto.
Qed.

(** X23. With identifiers that do not repeat, the children lists hold
    only identifiers of activities that [start_activity] created: this
    holds for every record in the live set and in the history. *)
Theorem children_are_created cfg t x c :
  fresh_uuids t ->
  let m := exec (init cfg) t in
  x ∈ get_active_activities m \/ x ∈ activities_history m ->
  c ∈ act_children x ->
  c ∈ created (log (init cfg) t).
Proof.
  intros [Hnd _] m Hx Hc.
  destruct (children_exec cfg t Hnd) as [Hl Hh]. fold m in Hl, Hh.
  destruct Hx as [[i Hi]%elem_of_get_active|Hx]; eauto.
Qed.

Definition family_trace : list op :=
  [StartActivity "p" 0 AGENT_EXECUTION "run" None None;
   StartActivity "q" 1 TOOL_EXECUTION "fetch" None (Some "p"%string);
   AddChildActivity "p" "q";
   EndActivity "p" COMPLETED None 9].

Definition p_with_child : Activity :=
  finalize
    (mkActivity "p" AGENT_EXECUTION "run" 0 STARTED ∅ None None ["q"%string])
    COMPLETED None 9.

Lemma children_are_created_witness :
  "q"%string ∈ created (log (init default_config) family_trace).
Proof.
  apply (children_are_created default_config family_trace p_with_child "q").
  - split; apply (bool_decide_unpack _); by vm_compute.
  - right. vm_compute. apply list_elem_of_here.
  - apply list_elem_of_here.
Defined.

(** ** Subscriptions *)

Lemma metrics_subscribers_step m o :
  metrics_subscribers (st (step o m))
  = match o with
    | SubscribeToMetrics cb => metrics_subscribers m ++ [cb]
    | _ => metrics_subscribers m
    end.
Proof.
  destruct o as [u now ty name md p|i s md now|p c|n u|cb|cb|sm|b];
    cbn [step].
  - unfold start_activity. destruct (negb _); [done|].
    by rewrite after_notify_st.
  - unfold end_activity. destruct (_ || _); [done|].
    destruct (activities m !! i); [|done]. by rewrite after_notify_st.
  - unfold add_child_activity. destruct (negb _); [done|].
    destruct (activities m !! p); [|done]. by destruct (activities m !! c).
  - unfold update_agent_metrics. by destruct (_ || _).
  - done.
  - done.
  - unfold collect_sample. by destruct (notify _ _).
  - done.
Qed.

(** X24. Subscriptions are append-only: over any sequence of operations
    the two subscriber lists only grow at the end, so a subscriber stays
    registered and keeps its place in the order of the calls. *)
Theorem subscriptions_append_only m t :
  subscribers m `prefix_of` subscribers (exec m t)
  /\ metrics_subscribers m `prefix_of` metrics_subscribers (exec m t).
Proof.
  revert m. induction t as [|o t IH]; intros m; [done|].
  rewrite exec_cons. destruct (IH (st (step o m))) as [IH1 IH2].
  destruct (step_frame m o) as (_ & _ & _ & _ & Hs & _). cbv zeta in Hs.
  pose proof (metrics_subscribers_step m o) as Hm.
  split.
  - etrans; [|exact IH1]. rewrite Hs.
    destruct o; try done. by apply prefix_app_r.
  - etrans; [|exact IH2]. rewrite Hm.
    destruct o; try done. by apply prefix_app_r.
Qed.

(** ** The order of the publications *)

(** X25. With identifiers that do not repeat, an [end_activity] call
    passes a record to [_notify_subscribers] only for an activity that an
    earlier [start_activity] call of the sequence created and passed to
    [_notify_subscribers]; the record carries the identifier given to
    [end_activity].  (Which subscribers were registered at either moment
    is another matter.) *)
Theorem start_published_before_end cfg t1 t2 i s md now a :
  fresh_uuids (t1 ++ EndActivity i s md now :: t2) ->
  published (end_activity i s md now (exec (init cfg) t1)) = Some a ->
  act_id a = i /\ i ∈ created (log (init cfg) t1).
Proof.
  intros [Hnd _] Hp.
  unfold uuids in Hnd. rewrite omap_app in Hnd.
  apply NoDup_app in Hnd as (Hnd & _ & _).
  destruct (inv_exec cfg t1 Hnd) as [Hlive _ _ _ _ _ _ _].
  destruct (end_activity_published _ _ _ _ _ _ Hp) as (Hid & [b Hb] & _).
  rewrite Hb in Hid. change (default a (Some b)) with b in Hid.
  destruct (Hlive i b Hb) as (Hb' & _ & HC).
  split; [congruence|done].
Qed.

Lemma start_published_before_end_witness :
  "a"%string ∈ created
    (log (init default_config)
       [StartActivity "a" 0 TOOL_EXECUTION "fetch" None None;
        StartActivity "b" 1 TOOL_EXECUTION "parse" None None]).
Proof.
  apply (start_published_before_end default_config
           [StartActivity "a" 0 TOOL_EXECUTION "fetch" None None;
            StartActivity "b" 1 TOOL_EXECUTION "parse" None None]
           [EndActivity "b" COMPLETED None 7]
           "a" COMPLETED None 5
           (finalize
              (mkActivity "a" TOOL_EXECUTION "fetch" 0 STARTED ∅ None None [])
              COMPLETED None 5)).
  - exact two_rounds_fresh.
  - vm_compute. reflexivity.
Defined.
